(** * The german-credit decision-tree notebook ([nb/tree.ipynb])

    A shallow embedding of the notebook's own logic: the row transformer
    [german_lp], the categorical feature table [german_cfi] and the
    train/validation sweep that fills [val_dat].  Spark, MLlib and pandas
    are collaborators of the notebook; they enter the sweep as section
    variables. *)

From Stdlib Require Import ZArith QArith Qreduction Lia List.
From stdpp Require Import base tactics option list numbers strings gmap.

Local Open Scope Z_scope.
Local Open Scope string_scope.

(** ** Python values and exceptions *)

(** The exceptions the notebook's own code can meet: a dict subscript
    with an absent key, a float division by zero, and whatever the
    training library raises. *)
Inductive PyError : Type :=
| KeyError (key : string)
| ZeroDivisionError
| TrainingFailure (detail : string).

Inductive Result (A : Type) : Type :=
| Ok (a : A)
| Raise (e : PyError).

Arguments Ok {A} a.
Arguments Raise {A} e.

#[global] Instance Result_ret : MRet Result := fun A a => Ok a.

#[global] Instance Result_bind : MBind Result := fun A B f r =>
  match r with
  | Ok a => f a
  | Raise e => Raise e
  end.

#[global] Instance Result_fmap : FMap Result := fun A B f r =>
  match r with
  | Ok a => Ok (f a)
  | Raise e => Raise e
  end.

(** A list display [[e0, e1, ...]]: the elements are evaluated from left
    to right and the first exception leaves the display. *)
Fixpoint collect {A : Type} (rs : list (Result A)) : Result (list A) :=
  match rs with
  | [] => Ok []
  | r :: rs' => a ← r; as' ← collect rs'; Ok (a :: as')
  end.

(** [vals[k]] on a dict with string keys. *)
Definition getitem (vals : gmap string Z) (k : string) : Result Z :=
  match vals !! k with
  | Some v => Ok v
  | None => Raise (KeyError k)
  end.

Notation "vals .[ k ]" := (getitem vals k)
  (at level 1, k at level 200, format "vals .[ k ]").
Notation "r .- n" := ((fun v : Z => v - n) <$> r)
  (at level 50, left associativity).

(** ** Labeled points *)

(** [pyspark.mllib.regression.LabeledPoint]: a label and a feature
    vector.  MLlib stores both as float64; the notebook only ever puts
    integers of the table there, which is what the embedding keeps.  A
    float64 holds an integer exactly up to 2^53 in magnitude, so the
    embedding is exact on that range and says nothing of rounding beyond
    it. *)
Record LabeledPoint : Type := mkLabeledPoint {
  label : Z;
  features : list Z
}.

(** ** The row transformer *)

(** [german_lp(x)], on [vals = x.asDict()]. *)
Definition german_lp (vals : gmap string Z) : Result LabeledPoint :=
  label ← vals.["cred"];
  feats ← collect [vals.["acct_bal"] .- 1;
                   vals.["dur_cred"];
                   vals.["pay_stat"];
                   vals.["purpose"];
                   vals.["cred_amt"];
                   vals.["value"] .- 1;
                   vals.["len_emp"] .- 1;
                   vals.["install_pc"] .- 1;
                   vals.["sex_married"] .- 1;
                   vals.["guarantors"] .- 1;
                   vals.["dur_addr"] .- 1;
                   vals.["max_val"] .- 1;
                   vals.["age"];
                   vals.["concurr"] .- 1;
                   vals.["typ_aprtmnt"] .- 1;
                   vals.["no_creds"] .- 1;
                   vals.["occupation"] .- 1;
                   vals.["no_dep"] .- 1;
                   vals.["telephone"] .- 1;
                   vals.["foreign_wkr"] .- 1];
  Ok (mkLabeledPoint label feats).

(** ** The categorical feature table *)

Definition german_cfi : gmap Z Z :=
  list_to_map [(0, 4); (5, 5); (6, 5); (7, 4); (8, 4); (9, 3); (10, 4);
               (11, 4); (13, 3); (14, 3); (15, 4); (16, 4); (17, 2);
               (18, 2); (19, 2)].

(** The keys of [german_cfi], as the dict display lists them. *)
Definition cfi_keys : list Z :=
  [0; 5; 6; 7; 8; 9; 10; 11; 13; 14; 15; 16; 17; 18; 19].

(** The feature positions that are no key of [german_cfi]. *)
Definition continuous_slots : list Z := [1; 2; 3; 4; 12].

(** ** The schema of the [german_parquet] table *)

(** The fields of the table, as the notebook's field table lists them:
    the label first, then the features in the order [german_lp] reads
    them. *)
Definition label_field : string := "cred".

Definition feature_fields : list string :=
  ["acct_bal"; "dur_cred"; "pay_stat"; "purpose"; "cred_amt"; "value";
   "len_emp"; "install_pc"; "sex_married"; "guarantors"; "dur_addr";
   "max_val"; "age"; "concurr"; "typ_aprtmnt"; "no_creds"; "occupation";
   "no_dep"; "telephone"; "foreign_wkr"].

Definition schema_fields : list string := label_field :: feature_fields.

(** ** The feature display, slot by slot *)

(** The raw value of a field that is present. *)
Definition raw (vals : gmap string Z) (f : string) : Z :=
  default 0 (vals !! f).

(** All fields of the schema are keys of the row. *)
Definition complete (vals : gmap string Z) : Prop :=
  Forall (fun f => is_Some (vals !! f)) schema_fields.

(** The first field, in the order [german_lp] subscripts the row, that
    the row lacks. *)
Definition first_absent (vals : gmap string Z) (fields : list string)
  : option string :=
  find (fun f => bool_decide (vals !! f = None)) fields.

(** The feature display of [german_lp], slot by slot: the field read and
    whether 1 is subtracted from it. *)
Definition layout : list (string * bool) :=
  [("acct_bal", true); ("dur_cred", false); ("pay_stat", false);
   ("purpose", false); ("cred_amt", false); ("value", true);
   ("len_emp", true); ("install_pc", true); ("sex_married", true);
   ("guarantors", true); ("dur_addr", true); ("max_val", true);
   ("age", false); ("concurr", true); ("typ_aprtmnt", true);
   ("no_creds", true); ("occupation", true); ("no_dep", true);
   ("telephone", true); ("foreign_wkr", true)].

Definition slot (vals : gmap string Z) (s : string * bool) : Result Z :=
  if s.2 then vals.[s.1] .- 1 else vals.[s.1].

Definition slot_value (vals : gmap string Z) (s : string * bool) : Z :=
  if s.2 then raw vals s.1 - 1 else raw vals s.1.

(** ** The sweep over [maxDepth] *)

(** [a / float(b)] on two counts.  The quotient is kept as the reduced
    fraction; Python returns the double nearest to it, and raises when
    the divisor is zero. *)
Definition float_div (a b : Z) : Result Q :=
  if decide (b = 0) then Raise ZeroDivisionError
  else Ok (Qred (inject_Z a / inject_Z b)).

(** [range(a, b)]. *)
Definition range (a b : Z) : list Z :=
  (fun i : nat => a + Z.of_nat i) <$> seq 0 (Z.to_nat (b - a)).

(** A [for] loop whose body updates the state [S] or raises. *)
Fixpoint for_each {S A : Type} (xs : list A) (body : A -> S -> Result S)
    (s : S) : Result S :=
  match xs with
  | [] => Ok s
  | x :: xs' => s' ← body x s; for_each xs' body s'
  end.

(** A row of [val_dat], under its column names. *)
Record Row : Type := mkRow {
  obs : Z;
  max_depth : Z;
  num_nodes : Z;
  train_err : Q;
  val_err : Q
}.

(** The passes of the two loops, in the order they run. *)
Definition iterations : list (Z * Z) := list_prod (range 0 30) (range 2 8).

Section Sweep.

(** The collaborators: MLlib's decision trees and Spark's [randomSplit].
    [Rng] is the state of the random source a split draws from. *)
Variable Model : Type.
Variable trainClassifier :
  forall (data : list LabeledPoint) (numClasses : Z)
         (categoricalFeaturesInfo : gmap Z Z) (impurity : string)
         (minInstancesPerNode maxDepth : Z), Result Model.
Variable predict : Model -> list Z -> Z.
Variable depth : Model -> Z.
Variable numNodes : Model -> Z.
Variable Rng : Type.
Variable randomSplit :
  list Q -> Rng -> list LabeledPoint ->
  (list LabeledPoint * list LabeledPoint) * Rng.

(** [te] and [ve]: the labels of [data] zipped with the predictions of
    [model] on its feature vectors. *)
Definition labels_and_predictions (model : Model) (data : list LabeledPoint)
  : list (Z * Z) :=
  zip (label <$> data) (predict model <$> (features <$> data)).

(** [train_err] and [val_err]:
    [te.filter(lambda (v, p): v != p).count() / float(te.count())]. *)
Definition misclassification_rate (model : Model) (data : list LabeledPoint)
  : Result Q :=
  let te := labels_and_predictions model data in
  float_div (Z.of_nat (length (filter (fun vp : Z * Z => vp.1 <> vp.2) te)))
            (Z.of_nat (length te)).

(** In the spec's words: the count of predictions disagreeing with the
    true label. *)
Definition mismatches (model : Model) (data : list LabeledPoint) : nat :=
  length (filter (fun p => predict model (features p) <> label p) data).

(** The body of the two loops, on the random source and [val_dat]. *)
Definition sweep_body (lp : list LabeledPoint) (obs max_depth : Z)
    (st : Rng * list Row) : Result (Rng * list Row) :=
  let '(rng, val_dat) := st in
  let '((lp_train, lp_val), rng') := randomSplit [4 # 5; 1 # 5]%Q rng lp in
  model ← trainClassifier lp_train 2 german_cfi "gini" 10 max_depth;
  train_err ← misclassification_rate model lp_train;
  val_err ← misclassification_rate model lp_val;
  Ok (rng', (val_dat ++ [mkRow obs (depth model) (numNodes model)
                               train_err val_err])%list).

(** The sweep cell: [val_dat] starts empty and gets a row per pass. *)
Definition sweep (rng : Rng) (lp : list LabeledPoint)
  : Result (Rng * list Row) :=
  for_each (range 0 30)
    (fun obs => for_each (range 2 8)
                  (fun max_depth => sweep_body lp obs max_depth))
    (rng, []).

(** One pass, told as a relation: from [rng], with trial [obs] and depth
    bound [d], the pass appends [row] and leaves the random source at
    [rng']. *)
Inductive iteration (lp : list LabeledPoint) (obs d : Z) (rng : Rng)
  : Row -> Rng -> Prop :=
| iteration_intro lp_train lp_val rng' model e_train e_val :
    randomSplit [4 # 5; 1 # 5]%Q rng lp = ((lp_train, lp_val), rng') ->
    trainClassifier lp_train 2 german_cfi "gini" 10 d = Ok model ->
    misclassification_rate model lp_train = Ok e_train ->
    misclassification_rate model lp_val = Ok e_val ->
    iteration lp obs d rng
      (mkRow obs (depth model) (numNodes model) e_train e_val) rng'.

(** A run of passes and the rows it appends, first pass first. *)
Inductive sweep_rows (lp : list LabeledPoint)
  : list (Z * Z) -> Rng -> list Row -> Rng -> Prop :=
| sweep_rows_nil rng : sweep_rows lp [] rng [] rng
| sweep_rows_cons obs d its rng row rng1 rows rng2 :
    iteration lp obs d rng row rng1 ->
    sweep_rows lp its rng1 rows rng2 ->
    sweep_rows lp ((obs, d) :: its) rng (row :: rows) rng2.

(** A trainer that rejects a categorical feature table with a key that is
    no position of a 20-element feature vector, and is [trainClassifier]
    otherwise. *)
Definition checked_trainClassifier (data : list LabeledPoint)
    (numClasses : Z) (categoricalFeaturesInfo : gmap Z Z) (impurity : string)
    (minInstancesPerNode maxDepth : Z) : Result Model :=
  if decide (map_Forall (fun (k _ : Z) => 0 <= k < 20)
               categoricalFeaturesInfo)
  then trainClassifier data numClasses categoricalFeaturesInfo impurity
         minInstancesPerNode maxDepth
  else Raise (TrainingFailure "categorical feature index out of range").

(** Every split of [lp] has two parts that are not empty. *)
Definition splits_nonempty (lp : list LabeledPoint) : Prop :=
  forall rng : Rng,
    (randomSplit [4 # 5; 1 # 5]%Q rng lp).1.1 <> [] /\
    (randomSplit [4 # 5; 1 # 5]%Q rng lp).1.2 <> [].

(** The trainer returns a model on every call the sweep can make. *)
Definition training_succeeds : Prop :=
  forall (data : list LabeledPoint) (d : Z),
    exists model, trainClassifier data 2 german_cfi "gini" 10 d = Ok model.

End Sweep.

(** ** The random split *)

(** Modelled from the spec: Spark's [RDD.randomSplit], which the sweep
    calls as [lp.randomSplit([0.8, 0.2])], is library code outside the
    notebook.  The spec's [random_split(examples, train_fraction, seed)]
    partitions the examples by random draws into a train set and a
    validation set: the example at position [i] goes to the train set when
    its draw [draws i] is below [train_fraction], and to the validation set
    otherwise. *)
Fixpoint split_from {A : Type} (train_fraction : Q) (draws : nat -> Q)
    (i : nat) (examples : list A) : list A * list A :=
  match examples with
  | [] => ([], [])
  | x :: rest =>
      let '(train_set, val_set) :=
        split_from train_fraction draws (S i) rest in
      if Qlt_le_dec (draws i) train_fraction
      then (x :: train_set, val_set)
      else (train_set, x :: val_set)
  end.

Definition random_split {A : Type} (train_fraction : Q) (draws : nat -> Q)
    (examples : list A) : list A * list A :=
  split_from train_fraction draws 0 examples.

(** ** The field table of the notebook *)

(** How the notebook's field table marks a field: the label, a continuous
    feature, or a categorical feature with its number of categories. *)
Inductive FieldKind : Type :=
| LabelField
| Continuous
| Categorical (num_cat : Z).

(** The rows of the field table, in its order: the field and its columns
    Cont., Cat. and NumCat. *)
Definition field_table : list (string * FieldKind) :=
  [("cred", LabelField);
   ("acct_bal", Categorical 4);
   ("dur_cred", Continuous);
   ("pay_stat", Continuous);
   ("purpose", Continuous);
   ("cred_amt", Continuous);
   ("value", Categorical 5);
   ("len_emp", Categorical 5);
   ("install_pc", Categorical 4);
   ("sex_married", Categorical 4);
   ("guarantors", Categorical 3);
   ("dur_addr", Categorical 4);
   ("max_val", Categorical 4);
   ("age", Continuous);
   ("concurr", Categorical 3);
   ("typ_aprtmnt", Categorical 3);
   ("no_creds", Categorical 4);
   ("occupation", Categorical 4);
   ("no_dep", Categorical 2);
   ("telephone", Categorical 2);
   ("foreign_wkr", Categorical 2)].

(** The NumCat column. *)
Definition num_categories (kind : FieldKind) : option Z :=
  match kind with
  | Categorical n => Some n
  | LabelField | Continuous => None
  end.

(** ** The dataset *)

(** The points of [lp = dat.map(german_lp)], once an action has evaluated
    every row of [dat]: the rows are mapped in order, and a row that raises
    leaves no list of points. *)
Definition lp_points (dat : list (gmap string Z))
  : Result (list LabeledPoint) :=
  collect (german_lp <$> dat).

(** [X = lp.map(lambda x: np.array(x.features)).collect()]. *)
Definition collect_X (lp : list LabeledPoint) : list (list Z) :=
  features <$> lp.

(** [y = lp.map(lambda x: np.array(x.label)).collect()]. *)
Definition collect_y (lp : list LabeledPoint) : list Z :=
  label <$> lp.

(** ** Rows, points and collaborators of the examples *)

(** The row of the end-to-end scenario. *)
Definition scenario_row : gmap string Z :=
  list_to_map [("acct_bal", 1); ("dur_cred", 6); ("pay_stat", 4);
               ("purpose", 2); ("cred_amt", 1169); ("value", 5);
               ("len_emp", 5); ("install_pc", 4); ("sex_married", 3);
               ("guarantors", 1); ("dur_addr", 4); ("max_val", 2);
               ("age", 67); ("concurr", 3); ("typ_aprtmnt", 2);
               ("no_creds", 2); ("occupation", 3); ("no_dep", 1);
               ("telephone", 2); ("foreign_wkr", 1); ("cred", 1)].

(** The scenario row with a current-account balance coded 0. *)
Definition zero_balance_row : gmap string Z :=
  <["acct_bal" := 0]> scenario_row.

(** Two labeled points: the one of the scenario row, and one that
    differs from it in label and age. *)
Definition scenario_point : LabeledPoint :=
  mkLabeledPoint 1 [0; 6; 4; 2; 1169; 4; 4; 3; 2; 0; 3; 1; 67; 2; 1; 1;
                    2; 0; 1; 0].

Definition young_point : LabeledPoint :=
  mkLabeledPoint 0 [0; 6; 4; 2; 1169; 4; 4; 3; 2; 0; 3; 1; 22; 2; 1; 1;
                    2; 0; 1; 0].

Definition two_points : list LabeledPoint := [scenario_point; young_point].

(** A trainer that always returns the stump predicting its label. *)
Definition stump_trainer (data : list LabeledPoint) (numClasses : Z)
    (categoricalFeaturesInfo : gmap Z Z) (impurity : string)
    (minInstancesPerNode maxDepth : Z) : Result Z := Ok 1.

Definition stump_predict (model : Z) (feats : list Z) : Z := model.
Definition stump_depth (model : Z) : Z := 0.
Definition stump_numNodes (model : Z) : Z := 1.

(** A trainer that always fails. *)
Definition failing_trainer (data : list LabeledPoint) (numClasses : Z)
    (categoricalFeaturesInfo : gmap Z Z) (impurity : string)
    (minInstancesPerNode maxDepth : Z) : Result Z :=
  Raise (TrainingFailure "no tree").

(** A random source that alternates low and high draws and swaps them
    from one split to the next. *)
Definition alternating_draws (rng : bool) (i : nat) : Q :=
  if xorb rng (Nat.even i) then 0%Q else (9 # 10)%Q.

Definition alternating_split (weights : list Q) (rng : bool)
    (data : list LabeledPoint)
  : (list LabeledPoint * list LabeledPoint) * bool :=
  (random_split (hd 0%Q weights) (alternating_draws rng) data, negb rng).

(** Two rows of the table: the scenario row and the row with balance
    coded 0. *)
Definition two_rows : list (gmap string Z) :=
  [scenario_row; zero_balance_row].

(** A random source that puts every example in the train set. *)
Definition all_train_split (weights : list Q) (rng : bool)
    (data : list LabeledPoint)
  : (list LabeledPoint * list LabeledPoint) * bool :=
  (random_split (hd 0%Q weights) (fun _ => 0%Q) data, negb rng).

(** The table the sweep fills with the stump trainer on [two_points] under
    the alternating source: the passes take turns in training on one point
    and validating on the other. *)
Definition stump_table : list Row :=
  (fun k : Z => mkRow (k / 6) 0 1
                  (if Z.even k then 0%Q else 1%Q)
                  (if Z.even k then 1%Q else 0%Q))
    <$> range 0 180.

(** ** Facts on [german_lp] *)

Lemma Ok_inj {A : Type} (a b : A) : Ok a = Ok b -> a = b.
Proof. intros [= ->]. reflexivity. Qed.

Lemma german_lp_layout (vals : gmap string Z) :
  german_lp vals =
  (label ← vals.["cred"];
   feats ← collect (slot vals <$> layout);
   Ok (mkLabeledPoint label feats)).
Proof. reflexivity. Qed.

Lemma layout_fields : layout.*1 = feature_fields.
Proof. reflexivity. Qed.

Lemma getitem_Some (vals : gmap string Z) (k : string) (v : Z) :
  vals !! k = Some v -> vals.[k] = Ok v.
Proof. unfold getitem. intros ->. reflexivity. Qed.

Lemma getitem_None (vals : gmap string Z) (k : string) :
  vals !! k = None -> vals.[k] = Raise (KeyError k).
Proof. unfold getitem. intros ->. reflexivity. Qed.

Lemma slot_Some (vals : gmap string Z) (f : string) (adj : bool) (v : Z) :
  vals !! f = Some v -> slot vals (f, adj) = Ok (slot_value vals (f, adj)).
Proof.
  intros Hf. unfold slot, slot_value, raw. cbn [fst snd].
  rewrite (getitem_Some _ _ _ Hf), Hf. destruct adj; reflexivity.
Qed.

Lemma slot_None (vals : gmap string Z) (f : string) (adj : bool) :
  vals !! f = None -> slot vals (f, adj) = Raise (KeyError f).
Proof.
  intros Hf. unfold slot. cbn [fst snd].
  rewrite (getitem_None _ _ Hf). destruct adj; reflexivity.
Qed.

Lemma collect_slots (vals : gmap string Z) (l : list (string * bool)) :
  collect (slot vals <$> l) =
  match first_absent vals (l.*1) with
  | Some k => Raise (KeyError k)
  | None => Ok (slot_value vals <$> l)
  end.
Proof.
  induction l as [|[f adj] l IH]; [reflexivity|].
  change (collect (slot vals <$> (f, adj) :: l))
    with (a ← slot vals (f, adj); as' ← collect (slot vals <$> l);
          Ok (a :: as')).
  change (first_absent vals (((f, adj) :: l).*1))
    with (if bool_decide (vals !! f = None) then Some f
          else first_absent vals (l.*1)).
  destruct (vals !! f) as [v|] eqn:Hf.
  - rewrite bool_decide_eq_false_2 by discriminate.
    rewrite (slot_Some _ _ _ _ Hf), IH.
    destruct (first_absent vals (l.*1)); reflexivity.
  - rewrite bool_decide_eq_true_2 by reflexivity.
    rewrite (slot_None _ _ _ Hf). reflexivity.
Qed.

Lemma german_lp_first_absent (vals : gmap string Z) :
  german_lp vals =
  match first_absent vals schema_fields with
  | Some k => Raise (KeyError k)
  | None => Ok (mkLabeledPoint (raw vals "cred")
                  (slot_value vals <$> layout))
  end.
Proof.
  rewrite german_lp_layout, collect_slots, layout_fields.
  change (first_absent vals schema_fields)
    with (if bool_decide (vals !! "cred" = None) then Some "cred"
          else first_absent vals feature_fields).
  unfold raw. destruct (vals !! "cred") as [c|] eqn:Hc.
  - rewrite bool_decide_eq_false_2 by discriminate.
    rewrite (getitem_Some _ _ _ Hc).
    destruct (first_absent vals feature_fields); reflexivity.
  - rewrite bool_decide_eq_true_2 by reflexivity.
    rewrite (getitem_None _ _ Hc). reflexivity.
Qed.

Lemma first_absent_None (vals : gmap string Z) (fields : list string) :
  first_absent vals fields = None <->
  Forall (fun f => is_Some (vals !! f)) fields.
Proof.
  unfold first_absent. induction fields as [|f fields IH]; cbn [find].
  - split; [constructor | reflexivity].
  - rewrite Forall_cons. destruct (vals !! f) as [v|] eqn:Hf.
    + rewrite bool_decide_eq_false_2 by discriminate.
      rewrite IH. split; [split; eauto | tauto].
    + rewrite bool_decide_eq_true_2 by reflexivity.
      split; [discriminate | intros [[v Hv] _]; discriminate].
Qed.

Lemma first_absent_Some (vals : gmap string Z) (fields : list string)
    (k : string) :
  first_absent vals fields = Some k -> k ∈ fields /\ vals !! k = None.
Proof.
  unfold first_absent. induction fields as [|f fields IH]; cbn [find].
  - discriminate.
  - destruct (bool_decide (vals !! f = None)) eqn:Hf.
    + intros [= <-]. apply bool_decide_eq_true_1 in Hf.
      split; [left | assumption].
    + intros Hk. destruct (IH Hk). split; [right|]; assumption.
Qed.

Lemma german_lp_complete (vals : gmap string Z) :
  complete vals ->
  german_lp vals =
  Ok (mkLabeledPoint (raw vals "cred") (slot_value vals <$> layout)).
Proof.
  intros Hc. apply first_absent_None in Hc.
  rewrite german_lp_first_absent, Hc. reflexivity.
Qed.

Lemma german_lp_Ok_complete (vals : gmap string Z) (lp : LabeledPoint) :
  german_lp vals = Ok lp -> complete vals.
Proof.
  rewrite german_lp_first_absent. intros H. apply first_absent_None.
  destruct (first_absent vals schema_fields); [discriminate | reflexivity].
Qed.

Lemma scenario_row_complete : complete scenario_row.
Proof. unfold complete. apply (bool_decide_unpack _). vm_compute. exact I. Qed.

(** C1: on the scenario row, [german_lp] returns the labeled point with
    label 1 and features
    [0,6,4,2,1169,4,4,3,2,0,3,1,67,2,1,1,2,0,1,0]. *)
Theorem german_lp_scenario :
  german_lp scenario_row =
  Ok (mkLabeledPoint 1 [0; 6; 4; 2; 1169; 4; 4; 3; 2; 0; 3; 1; 67; 2; 1; 1;
                        2; 0; 1; 0]).
Proof. vm_compute. reflexivity. Qed.

(** C6: on a row with all fields, [german_lp] returns a feature vector of
    length 20, the 21 fields of the schema less the label. *)
Theorem german_lp_features_length (vals : gmap string Z) :
  complete vals ->
  exists lp, german_lp vals = Ok lp /\
             length (features lp) = 20%nat /\
             length (features lp) = (length schema_fields - 1)%nat.
Proof.
  intros Hc. eexists. split; [apply german_lp_complete, Hc|].
  cbn [features]. rewrite length_fmap. split; reflexivity.
Qed.

Lemma german_lp_features_length_witness :
  complete scenario_row /\
  exists lp, german_lp scenario_row = Ok lp /\
             length (features lp) = 20%nat /\
             length (features lp) = (length schema_fields - 1)%nat.
Proof.
  split; [exact scenario_row_complete|].
  apply (german_lp_features_length scenario_row). exact scenario_row_complete.
Defined.

Lemma german_cfi_dom : dom german_cfi = list_to_set cfi_keys.
Proof. apply (bool_decide_unpack _). vm_compute. exact I. Qed.

Lemma layout_adjust_cfi :
  layout.*2 =
  (fun i : nat => bool_decide (Z.of_nat i ∈ dom german_cfi)) <$> seq 0 20.
Proof. vm_compute. reflexivity. Qed.

Lemma layout_lookup (i : nat) (f : string) :
  feature_fields !! i = Some f ->
  layout !! i = Some (f, bool_decide (Z.of_nat i ∈ dom german_cfi)).
Proof.
  intros Hf.
  assert (Hi : (i < 20)%nat) by (apply lookup_lt_Some in Hf; exact Hf).
  destruct (layout !! i) as [[f' adj]|] eqn:Hl.
  - assert (H1 : layout.*1 !! i = Some f')
      by (rewrite list_lookup_fmap, Hl; reflexivity).
    assert (H2 : layout.*2 !! i = Some adj)
      by (rewrite list_lookup_fmap, Hl; reflexivity).
    rewrite layout_fields, Hf in H1.
    rewrite layout_adjust_cfi, list_lookup_fmap, lookup_seq_lt in H2
      by exact Hi.
    injection H1 as <-. injection H2 as <-. reflexivity.
  - apply lookup_ge_None in Hl. cbn in Hl. lia.
Qed.

Lemma german_lp_feature (vals : gmap string Z) (lp : LabeledPoint)
    (i : nat) (f : string) :
  german_lp vals = Ok lp ->
  feature_fields !! i = Some f ->
  exists v, vals !! f = Some v /\
            features lp !! i =
            Some (if bool_decide (Z.of_nat i ∈ dom german_cfi)
                  then v - 1 else v).
Proof.
  intros Hlp Hf.
  pose proof (german_lp_Ok_complete _ _ Hlp) as Hc.
  rewrite (german_lp_complete _ Hc) in Hlp. apply Ok_inj in Hlp. subst lp.
  assert (Hin : f ∈ schema_fields)
    by (right; eapply list_elem_of_lookup_2; exact Hf).
  unfold complete in Hc. rewrite Forall_forall in Hc.
  destruct (Hc f Hin) as [v Hv]. exists v. split; [exact Hv|].
  cbn [features]. rewrite list_lookup_fmap, (layout_lookup _ _ Hf).
  unfold slot_value, raw. cbn [fst snd fmap option_fmap option_map].
  rewrite Hv. reflexivity.
Qed.

Lemma getitem_ext (vals vals' : gmap string Z) (f : string) :
  vals' !! f = vals !! f -> vals'.[f] = vals.[f].
Proof. unfold getitem. intros ->. reflexivity. Qed.

Lemma german_lp_ext (vals vals' : gmap string Z) :
  (forall f, f ∈ schema_fields -> vals' !! f = vals !! f) ->
  german_lp vals' = german_lp vals.
Proof.
  intros Hagree. rewrite !german_lp_layout.
  rewrite (getitem_ext vals vals' "cred") by (apply Hagree; left).
  assert (Hslots : slot vals' <$> layout = slot vals <$> layout).
  { apply Forall_fmap_ext, Forall_forall. intros [f adj] Hin.
    unfold slot. cbn [fst snd].
    rewrite (getitem_ext vals vals' f); [reflexivity|].
    apply Hagree. right. rewrite <- layout_fields.
    apply list_elem_of_fmap. exists (f, adj). split; [reflexivity|exact Hin]. }
  rewrite Hslots. reflexivity.
Qed.

(** C8: [german_lp] raises [KeyError] when a field of the schema is no
    key of the row, at a field the row lacks, and returns a labeled point
    otherwise; its result is a function of the 21 fields alone. *)
Theorem german_lp_schema_error (vals : gmap string Z) :
  ((exists f, f ∈ schema_fields /\ vals !! f = None) ->
   exists k, k ∈ schema_fields /\ vals !! k = None /\
             german_lp vals = Raise (KeyError k)) /\
  (complete vals -> exists lp, german_lp vals = Ok lp) /\
  (forall vals' : gmap string Z,
     (forall f, f ∈ schema_fields -> vals' !! f = vals !! f) ->
     german_lp vals' = german_lp vals).
Proof.
  split; [|split].
  - intros (f & Hin & Hf). rewrite german_lp_first_absent.
    destruct (first_absent vals schema_fields) as [k|] eqn:Hk.
    + destruct (first_absent_Some _ _ _ Hk) as [Hkin Hknone]. eauto.
    + apply first_absent_None in Hk. rewrite Forall_forall in Hk.
      destruct (Hk f Hin) as [v Hv]. congruence.
  - intros Hc. eexists. apply german_lp_complete, Hc.
  - apply german_lp_ext.
Qed.

Lemma german_lp_schema_error_witness :
  (exists k, k ∈ schema_fields /\ (delete "age" scenario_row) !! k = None /\
             german_lp (delete "age" scenario_row) = Raise (KeyError k)) /\
  (exists lp, german_lp scenario_row = Ok lp).
Proof.
  split.
  - apply (proj1 (german_lp_schema_error (delete "age" scenario_row))).
    exists "age". split; [|apply lookup_delete_eq].
    apply (bool_decide_unpack _). vm_compute. exact I.
  - apply (proj1 (proj2 (german_lp_schema_error scenario_row))).
    exact scenario_row_complete.
Defined.

(** C5, as stated, fails: [zero_balance_row] has all 21 fields, position
    0 is a key of [german_cfi], and [german_lp] puts -1 there. *)
Lemma german_lp_negative_feature :
  complete zero_balance_row /\
  german_cfi !! 0 = Some 4 /\
  german_lp zero_balance_row =
    Ok (mkLabeledPoint 1 [-1; 6; 4; 2; 1169; 4; 4; 3; 2; 0; 3; 1; 67; 2; 1;
                          1; 2; 0; 1; 0]) /\
  ~ (forall lp v, german_lp zero_balance_row = Ok lp ->
                  features lp !! 0%nat = Some v -> 0 <= v).
Proof.
  split; [|split; [|split]].
  - unfold complete. apply (bool_decide_unpack _). vm_compute. exact I.
  - vm_compute. reflexivity.
  - vm_compute. reflexivity.
  - intros H. specialize (H _ (-1) ltac:(vm_compute; reflexivity) eq_refl).
    lia.
Qed.

Lemma german_cfi_keys_range (k : Z) :
  k ∈ dom german_cfi -> 0 <= k < 20.
Proof.
  rewrite german_cfi_dom, elem_of_list_to_set. revert k.
  apply Forall_forall. apply (bool_decide_unpack _). vm_compute. exact I.
Qed.

Lemma feature_fields_lookup (i : nat) :
  (i < 20)%nat -> exists f, feature_fields !! i = Some f.
Proof. intros Hi. apply lookup_lt_is_Some_2. exact Hi. Qed.

(** C5, amended: on a row with all fields whose raw values at the fields
    of the positions that are keys of [german_cfi] are [>= 1], the feature
    at each such position is the raw value less 1, hence [>= 0]. *)
Theorem german_lp_categorical_nonneg (vals : gmap string Z) :
  complete vals ->
  (forall (i : nat) (f : string) (v : Z),
     feature_fields !! i = Some f -> Z.of_nat i ∈ dom german_cfi ->
     vals !! f = Some v -> 1 <= v) ->
  exists lp, german_lp vals = Ok lp /\
    forall i : nat,
      Z.of_nat i ∈ dom german_cfi ->
      exists (f : string) (v : Z),
        feature_fields !! i = Some f /\ vals !! f = Some v /\
        features lp !! i = Some (v - 1) /\ 0 <= v - 1.
Proof.
  intros Hc Hraw. pose proof (german_lp_complete vals Hc) as Hlp.
  set (lp := mkLabeledPoint _ _) in Hlp.
  exists lp. split; [exact Hlp|]. intros i Hi.
  destruct (feature_fields_lookup i) as [f Hf];
    [apply german_cfi_keys_range in Hi; lia|].
  destruct (german_lp_feature _ _ _ _ Hlp Hf) as (v & Hv & Hfeat).
  rewrite bool_decide_eq_true_2 in Hfeat by exact Hi.
  exists f, v. repeat split; try assumption.
  specialize (Hraw i f v Hf Hi Hv). lia.
Qed.

Lemma scenario_row_positive :
  map_Forall (fun (_ : string) (v : Z) => 1 <= v) scenario_row.
Proof. apply (bool_decide_unpack _). vm_compute. exact I. Qed.

Lemma german_lp_categorical_nonneg_witness :
  exists lp, german_lp scenario_row = Ok lp /\
    forall i : nat,
      Z.of_nat i ∈ dom german_cfi ->
      exists (f : string) (v : Z),
        feature_fields !! i = Some f /\ scenario_row !! f = Some v /\
        features lp !! i = Some (v - 1) /\ 0 <= v - 1.
Proof.
  apply (german_lp_categorical_nonneg scenario_row).
  - exact scenario_row_complete.
  - intros i f v _ _ Hv. exact (scenario_row_positive f v Hv).
Defined.

Lemma continuous_slots_complement :
  Forall (fun k : Z => bool_decide (k ∈ dom german_cfi)
                       = negb (bool_decide (k ∈ continuous_slots)))
         (Z.of_nat <$> seq 0 20).
Proof. apply (bool_decide_unpack _). vm_compute. exact I. Qed.

(** C10: [german_lp] subtracts 1 at a feature position exactly when the
    position is a key of [german_cfi]; the keys are
    0,5,6,7,8,9,10,11,13,14,15,16,17,18,19 and the other positions,
    1,2,3,4,12, carry the raw value.  On every row with all fields the
    point is returned with one feature per field, the raw value less 1
    at the positions that are keys and the raw value itself at the
    others. *)
Theorem minus_one_iff_categorical :
  dom german_cfi = list_to_set cfi_keys /\
  (forall k : Z, 0 <= k < 20 ->
     (k ∉ dom german_cfi <-> k ∈ continuous_slots)) /\
  (forall (vals : gmap string Z) (lp : LabeledPoint) (i : nat) (f : string),
     german_lp vals = Ok lp ->
     feature_fields !! i = Some f ->
     exists v, vals !! f = Some v /\
       (Z.of_nat i ∈ dom german_cfi -> features lp !! i = Some (v - 1)) /\
       (Z.of_nat i ∉ dom german_cfi -> features lp !! i = Some v)) /\
  (forall vals : gmap string Z,
     complete vals ->
     exists lp, german_lp vals = Ok lp /\
       length (features lp) = length feature_fields /\
       forall (i : nat) (f : string),
         feature_fields !! i = Some f ->
         exists v, vals !! f = Some v /\
           (Z.of_nat i ∈ dom german_cfi ->
            features lp !! i = Some (v - 1)) /\
           (Z.of_nat i ∉ dom german_cfi ->
            features lp !! i = Some v)).
Proof.
  split; [exact german_cfi_dom|split; [|split]].
  - intros k Hk.
    assert (Hcases : k ∈ (Z.of_nat <$> seq 0 20)).
    { apply list_elem_of_fmap. exists (Z.to_nat k).
      split; [lia | apply elem_of_seq; lia]. }
    pose proof continuous_slots_complement as Hall.
    rewrite Forall_forall in Hall. specialize (Hall k Hcases).
    destruct (bool_decide (k ∈ continuous_slots)) eqn:Ec; cbn in Hall.
    + apply bool_decide_eq_false_1 in Hall.
      apply bool_decide_eq_true_1 in Ec. tauto.
    + apply bool_decide_eq_true_1 in Hall.
      apply bool_decide_eq_false_1 in Ec. tauto.
  - intros vals lp i f Hlp Hf.
    destruct (german_lp_feature _ _ _ _ Hlp Hf) as (v & Hv & Hfeat).
    exists v. split; [exact Hv|]. split; intros Hi.
    + rewrite bool_decide_eq_true_2 in Hfeat by exact Hi. exact Hfeat.
    + rewrite bool_decide_eq_false_2 in Hfeat by exact Hi. exact Hfeat.
  - intros vals Hc. pose proof (german_lp_complete vals Hc) as Hlp.
    set (lp := mkLabeledPoint _ _) in Hlp.
    exists lp. split; [exact Hlp|]. split.
    { subst lp. cbn [features]. rewrite length_fmap. reflexivity. }
    intros i f Hf.
    destruct (german_lp_feature _ _ _ _ Hlp Hf) as (v & Hv & Hfeat).
    exists v. split; [exact Hv|]. split; intros Hi.
    + rewrite bool_decide_eq_true_2 in Hfeat by exact Hi. exact Hfeat.
    + rewrite bool_decide_eq_false_2 in Hfeat by exact Hi. exact Hfeat.
Qed.

Lemma minus_one_iff_categorical_witness :
  exists lp, german_lp scenario_row = Ok lp /\
    length (features lp) = length feature_fields /\
    forall (i : nat) (f : string),
      feature_fields !! i = Some f ->
      exists v, scenario_row !! f = Some v /\
        (Z.of_nat i ∈ dom german_cfi ->
         features lp !! i = Some (v - 1)) /\
        (Z.of_nat i ∉ dom german_cfi ->
         features lp !! i = Some v).
Proof.
  apply (proj2 (proj2 (proj2 minus_one_iff_categorical)) scenario_row).
  exact scenario_row_complete.
Defined.

(** ** Facts on the float division *)

Lemma inject_Z_nonzero (b : Z) : b <> 0 -> ~ (inject_Z b == 0)%Q.
Proof. intros Hb Heq. unfold Qeq in Heq. cbn in Heq. lia. Qed.

Lemma float_div_zero (a : Z) : float_div a 0 = Raise ZeroDivisionError.
Proof. reflexivity. Qed.

Lemma float_div_nonzero (a b : Z) :
  b <> 0 -> float_div a b = Ok (Qred (inject_Z a / inject_Z b)).
Proof. intros Hb. unfold float_div. destruct (decide (b = 0)); done. Qed.

Lemma float_div_Raise (a b : Z) (e : PyError) :
  float_div a b = Raise e <-> b = 0 /\ e = ZeroDivisionError.
Proof.
  unfold float_div. destruct (decide (b = 0)) as [->|Hb].
  - split; [intros [= <-]; done | intros [_ ->]; done].
  - split; [discriminate | intros [? _]; done].
Qed.

Lemma float_div_0_l (b : Z) : b <> 0 -> float_div 0 b = Ok 0%Q.
Proof.
  intros Hb. rewrite float_div_nonzero by exact Hb. apply f_equal.
  change 0%Q with (Qred 0). apply Qred_complete.
  unfold Qdiv. apply Qmult_0_l.
Qed.

Lemma float_div_diag (b : Z) : b <> 0 -> float_div b b = Ok 1%Q.
Proof.
  intros Hb. rewrite float_div_nonzero by exact Hb. apply f_equal.
  change 1%Q with (Qred 1). apply Qred_complete.
  unfold Qdiv. apply Qmult_inv_r, inject_Z_nonzero, Hb.
Qed.

(** ** Facts on the error rate *)

Section RateFacts.

Context {Model : Type} (predict : Model -> list Z -> Z).

Local Abbreviation rate := (misclassification_rate Model predict).
Local Abbreviation pairs := (labels_and_predictions Model predict).
Local Abbreviation wrong := (mismatches Model predict).

Lemma labels_and_predictions_length (model : Model)
    (data : list LabeledPoint) :
  length (pairs model data) = length data.
Proof.
  unfold labels_and_predictions.
  rewrite length_zip_with, !length_fmap. lia.
Qed.

Lemma filter_pairs_mismatches (model : Model) (data : list LabeledPoint) :
  length (filter (fun vp : Z * Z => vp.1 <> vp.2) (pairs model data))
  = wrong model data.
Proof.
  unfold labels_and_predictions, mismatches.
  induction data as [|p data IH]; [reflexivity|].
  cbn [fmap list_fmap zip_with]. rewrite !filter_cons. cbn [fst snd].
  destruct (decide (label p = predict model (features p))) as [Heq|Hne].
  - rewrite !decide_False by (intros H; apply H; congruence). exact IH.
  - rewrite !decide_True by congruence. cbn [length]. rewrite IH.
    reflexivity.
Qed.

Lemma rate_as_quotient (model : Model) (data : list LabeledPoint) :
  rate model data =
  float_div (Z.of_nat (wrong model data)) (Z.of_nat (length data)).
Proof.
  unfold misclassification_rate.
  rewrite filter_pairs_mismatches, labels_and_predictions_length.
  reflexivity.
Qed.

Lemma mismatches_none (model : Model) (data : list LabeledPoint) :
  (forall p, p ∈ data -> predict model (features p) = label p) ->
  wrong model data = 0%nat.
Proof.
  intros Hall. unfold mismatches.
  induction data as [|p data IH]; [reflexivity|].
  rewrite filter_cons.
  destruct (decide (predict model (features p) <> label p)) as [Hne|_].
  - exfalso. apply Hne, Hall. left.
  - apply IH. intros q Hq. apply Hall. right. exact Hq.
Qed.

Lemma mismatches_all (model : Model) (data : list LabeledPoint) :
  (forall p, p ∈ data -> predict model (features p) <> label p) ->
  wrong model data = length data.
Proof.
  intros Hall. unfold mismatches.
  induction data as [|p data IH]; [reflexivity|].
  rewrite filter_cons.
  destruct (decide (predict model (features p) <> label p)) as [_|Heq].
  - cbn [length]. f_equal. apply IH. intros q Hq. apply Hall. right.
    exact Hq.
  - exfalso. apply Heq, Hall. left.
Qed.

Lemma rate_Raise (model : Model) (data : list LabeledPoint) (e : PyError) :
  rate model data = Raise e <-> data = [] /\ e = ZeroDivisionError.
Proof.
  rewrite rate_as_quotient, float_div_Raise.
  destruct data; cbn [length]; split; intros [H1 H2]; split;
    try done; lia.
Qed.

Lemma rate_nonempty (model : Model) (data : list LabeledPoint) :
  data <> [] -> exists q, rate model data = Ok q.
Proof.
  intros Hne. destruct (rate model data) as [q|e] eqn:Hr; [eauto|].
  apply rate_Raise in Hr. destruct Hr. contradiction.
Qed.

End RateFacts.

(** C3, as stated, fails on the empty list: every prediction matches its
    label there, none being made, and the rate is no 0 but a
    [ZeroDivisionError]. *)
Lemma rate_of_no_examples_raises :
  misclassification_rate Z stump_predict 1 [] = Raise ZeroDivisionError /\
  ~ (forall data : list LabeledPoint,
       (forall p, p ∈ data -> stump_predict 1 (features p) = label p) ->
       misclassification_rate Z stump_predict 1 data = Ok 0%Q).
Proof.
  split; [reflexivity|].
  intros H. specialize (H []). discriminate H.
  intros p Hp. inversion Hp.
Qed.

(** C3, amended: the rate is the number of examples whose prediction is
    not their label, divided by the number of examples, where a division
    by zero raises; on a list that is not empty it is that quotient, 0
    when every prediction is the label and 1 when no prediction is. *)
Theorem misclassification_rate_quotient {Model : Type}
    (predict : Model -> list Z -> Z) (model : Model)
    (data : list LabeledPoint) :
  misclassification_rate Model predict model data =
    float_div (Z.of_nat (mismatches Model predict model data))
              (Z.of_nat (length data)) /\
  (data <> [] ->
   misclassification_rate Model predict model data =
     Ok (Qred (inject_Z (Z.of_nat (mismatches Model predict model data))
               / inject_Z (Z.of_nat (length data))))) /\
  (data <> [] ->
   (forall p, p ∈ data -> predict model (features p) = label p) ->
   misclassification_rate Model predict model data = Ok 0%Q) /\
  (data <> [] ->
   (forall p, p ∈ data -> predict model (features p) <> label p) ->
   misclassification_rate Model predict model data = Ok 1%Q).
Proof.
  assert (Hlen : data <> [] -> Z.of_nat (length data) <> 0)
    by (destruct data; [contradiction | cbn [length]; lia]).
  split; [apply rate_as_quotient|]. rewrite rate_as_quotient.
  split; [|split].
  - intros Hne. apply float_div_nonzero, Hlen, Hne.
  - intros Hne Hall. rewrite (mismatches_none predict model data Hall).
    apply float_div_0_l, Hlen, Hne.
  - intros Hne Hall. rewrite (mismatches_all predict model data Hall).
    apply float_div_diag, Hlen, Hne.
Qed.

Lemma misclassification_rate_quotient_witness :
  misclassification_rate Z stump_predict 1 [mkLabeledPoint 1 [0; 6]]
    = Ok 0%Q /\
  misclassification_rate Z stump_predict 0 [mkLabeledPoint 1 [0; 6]]
    = Ok 1%Q.
Proof.
  split.
  - apply (proj1 (proj2 (proj2 (misclassification_rate_quotient
             stump_predict 1 [mkLabeledPoint 1 [0; 6]])))).
    + discriminate.
    + intros p Hp. apply list_elem_of_singleton in Hp. subst p. reflexivity.
  - apply (proj2 (proj2 (proj2 (misclassification_rate_quotient
             stump_predict 0 [mkLabeledPoint 1 [0; 6]])))).
    + discriminate.
    + intros p Hp. apply list_elem_of_singleton in Hp. subst p. discriminate.
Defined.

(** ** Facts on the random split *)

Lemma split_from_length {A : Type} (fraction : Q) (draws : nat -> Q)
    (i : nat) (examples : list A) :
  (length (split_from fraction draws i examples).1
   + length (split_from fraction draws i examples).2)%nat
  = length examples.
Proof.
  revert i. induction examples as [|x rest IH]; intros i; [reflexivity|].
  cbn [split_from]. specialize (IH (S i)).
  destruct (split_from fraction draws (S i) rest) as [tr va].
  destruct (Qlt_le_dec (draws i) fraction); cbn [fst snd length] in *; lia.
Qed.

Lemma split_from_all_train {A : Type} (i : nat) (examples : list A) :
  split_from (4 # 5) (fun _ => 0%Q) i examples = (examples, []).
Proof.
  revert i. induction examples as [|x rest IH]; intros i; [reflexivity|].
  cbn [split_from]. rewrite IH.
  destruct (Qlt_le_dec 0 (4 # 5)) as [_|Hle]; [reflexivity|].
  exfalso. revert Hle. apply Qlt_not_le. reflexivity.
Qed.

Lemma split_from_all_val {A : Type} (i : nat) (examples : list A) :
  split_from (4 # 5) (fun _ => (9 # 10)%Q) i examples = ([], examples).
Proof.
  revert i. induction examples as [|x rest IH]; intros i; [reflexivity|].
  cbn [split_from]. rewrite IH.
  destruct (Qlt_le_dec (9 # 10) (4 # 5)) as [Hlt|_]; [|reflexivity].
  exfalso. revert Hlt. apply Qle_not_lt. discriminate.
Qed.

(** C9: a split with fraction 0.8 puts every example in one of its two
    parts, so their lengths add up to the size of the dataset, whatever the
    draws; and two calls whose draws differ can part a dataset that is not
    empty in two ways. *)
Theorem random_split_total {A : Type} (examples : list A) :
  (forall draws : nat -> Q,
     (length (random_split (4 # 5) draws examples).1
      + length (random_split (4 # 5) draws examples).2)%nat
     = length examples) /\
  (examples <> [] ->
   exists draws1 draws2 : nat -> Q,
     random_split (4 # 5) draws1 examples
     <> random_split (4 # 5) draws2 examples).
Proof.
  split.
  - intros draws. apply split_from_length.
  - intros Hne. exists (fun _ => 0%Q), (fun _ => (9 # 10)%Q).
    unfold random_split. rewrite split_from_all_train, split_from_all_val.
    intros [= H1 H2]. apply Hne. exact H1.
Qed.

Lemma random_split_total_witness :
  exists draws1 draws2 : nat -> Q,
    random_split (4 # 5) draws1 two_points
    <> random_split (4 # 5) draws2 two_points.
Proof.
  apply (proj2 (random_split_total two_points)). discriminate.
Defined.

(** ** Facts on the loops *)

Lemma for_each_app {S A : Type} (xs ys : list A) (body : A -> S -> Result S)
    (s : S) :
  for_each (xs ++ ys) body s = (s' ← for_each xs body s; for_each ys body s').
Proof.
  revert s. induction xs as [|x xs IH]; intros s; [reflexivity|].
  cbn [for_each app]. destruct (body x s) as [s1|e]; [apply IH|reflexivity].
Qed.

Lemma for_each_map {S A B : Type} (f : B -> A) (ys : list B)
    (body : A -> S -> Result S) (s : S) :
  for_each (map f ys) body s = for_each ys (fun y => body (f y)) s.
Proof.
  revert s. induction ys as [|y ys IH]; intros s; [reflexivity|].
  cbn [for_each map]. destruct (body (f y) s) as [s1|e];
    [apply IH|reflexivity].
Qed.

Lemma for_each_ext {S A : Type} (xs : list A) (body body' : A -> S -> Result S)
    (s : S) :
  (forall x s, body x s = body' x s) ->
  for_each xs body s = for_each xs body' s.
Proof.
  intros Hext. revert s. induction xs as [|x xs IH]; intros s; [reflexivity|].
  cbn [for_each]. rewrite Hext. destruct (body' x s) as [s1|e];
    [apply IH|reflexivity].
Qed.

(** Two nested loops run the passes of [list_prod] in order. *)
Lemma for_each_nested {S A B : Type} (xs : list A) (ys : list B)
    (body : A -> B -> S -> Result S) (s : S) :
  for_each xs (fun x => for_each ys (body x)) s =
  for_each (list_prod xs ys) (fun xy => body xy.1 xy.2) s.
Proof.
  revert s. induction xs as [|x xs IH]; intros s; [reflexivity|].
  cbn [for_each list_prod]. rewrite for_each_app, for_each_map.
  cbn [fst snd].
  destruct (for_each ys (fun y => body x y) s) as [s1|e];
    [apply IH|reflexivity].
Qed.

Lemma iterations_by_index :
  iterations = (fun k : Z => (k / 6, 2 + k mod 6)) <$> range 0 180.
Proof. vm_compute. reflexivity. Qed.

Lemma iterations_length : length iterations = 180%nat.
Proof. reflexivity. Qed.

(** ** Facts on the sweep *)

Section SweepFacts.

Context {Model : Type}.
Context (trainClassifier :
           list LabeledPoint -> Z -> gmap Z Z -> string -> Z -> Z ->
           Result Model).
Context (predict : Model -> list Z -> Z) (depth numNodes : Model -> Z).
Context {Rng : Type}.
Context (randomSplit :
           list Q -> Rng -> list LabeledPoint ->
           (list LabeledPoint * list LabeledPoint) * Rng).

Local Abbreviation rate := (misclassification_rate Model predict).
Local Abbreviation body :=
  (sweep_body Model trainClassifier predict depth numNodes Rng randomSplit).
Local Abbreviation pass :=
  (iteration Model trainClassifier predict depth numNodes Rng randomSplit).
Local Abbreviation passes :=
  (sweep_rows Model trainClassifier predict depth numNodes Rng randomSplit).
Local Abbreviation run :=
  (sweep Model trainClassifier predict depth numNodes Rng randomSplit).
Local Abbreviation splits_ok := (splits_nonempty Rng randomSplit).
Local Abbreviation trained := (training_succeeds Model trainClassifier).

Lemma sweep_flat (rng : Rng) (lp : list LabeledPoint) :
  run rng lp = for_each iterations (fun it => body lp it.1 it.2) (rng, []).
Proof. unfold sweep, iterations. apply for_each_nested. Qed.

Lemma sweep_body_Ok (lp : list LabeledPoint) (obs d : Z) (rng rng' : Rng)
    (tbl tbl' : list Row) :
  body lp obs d (rng, tbl) = Ok (rng', tbl') <->
  exists row, pass lp obs d rng row rng' /\ tbl' = (tbl ++ [row])%list.
Proof.
  unfold sweep_body.
  destruct (randomSplit [4 # 5; 1 # 5]%Q rng lp) as [[tr va] r1] eqn:Hsplit.
  split.
  - destruct (trainClassifier tr 2 german_cfi "gini" 10 d) as [m|e] eqn:Ht;
      cbn [mbind Result_bind]; [|discriminate].
    destruct (rate m tr) as [e1|e] eqn:H1; cbn [mbind Result_bind];
      [|discriminate].
    destruct (rate m va) as [e2|e] eqn:H2; cbn [mbind Result_bind];
      [|discriminate].
    intros [= <- <-]. eexists. split; [|reflexivity].
    econstructor; eassumption.
  - intros (row & Hpass & ->).
    inversion Hpass as [tr0 va0 r0 m e1 e2 Hs Ht H1 H2].
    subst. rewrite Hsplit in Hs. injection Hs as -> -> ->.
    rewrite Ht. cbn. rewrite H1. cbn. rewrite H2. reflexivity.
Qed.

Lemma for_each_body_Ok (lp : list LabeledPoint) (its : list (Z * Z))
    (rng rng' : Rng) (tbl tbl' : list Row) :
  for_each its (fun it => body lp it.1 it.2) (rng, tbl) = Ok (rng', tbl') <->
  exists rows, passes lp its rng rows rng' /\ tbl' = (tbl ++ rows)%list.
Proof.
  revert rng tbl. induction its as [|[obs d] its IH]; intros rng tbl.
  - cbn [for_each]. split.
    + intros [= <- <-]. exists []. split; [constructor|].
      symmetry. apply app_nil_r.
    + intros (rows & Hrows & ->). inversion Hrows; subst.
      rewrite app_nil_r. reflexivity.
  - cbn [for_each fst snd]. split.
    + destruct (body lp obs d (rng, tbl)) as [[r1 t1]|e] eqn:Hb;
        [|discriminate].
      apply sweep_body_Ok in Hb. destruct Hb as (row & Hpass & ->).
      intros Hrest. apply IH in Hrest. destruct Hrest as (rows & Hrows & ->).
      exists (row :: rows). split; [econstructor; eassumption|].
      rewrite <- app_assoc. reflexivity.
    + intros (rows & Hrows & ->).
      inversion Hrows as [|? ? ? ? row r1 rows' ? Hpass Hrest]; subst.
      assert (Hb : body lp obs d (rng, tbl) = Ok (r1, (tbl ++ [row])%list))
        by (apply sweep_body_Ok; eauto).
      rewrite Hb. apply IH. exists rows'. split; [exact Hrest|].
      rewrite <- app_assoc. reflexivity.
Qed.

Lemma sweep_rows_length (lp : list LabeledPoint) (its : list (Z * Z))
    (rng rng' : Rng) (rows : list Row) :
  passes lp its rng rows rng' -> length rows = length its.
Proof.
  induction 1 as [|? ? ? ? ? ? ? ? _ _ IH]; [reflexivity|].
  cbn [length]. rewrite IH. reflexivity.
Qed.

Lemma sweep_rows_obs (lp : list LabeledPoint) (its : list (Z * Z))
    (rng rng' : Rng) (rows : list Row) :
  passes lp its rng rows rng' -> obs <$> rows = its.*1.
Proof.
  induction 1 as [|? ? ? ? ? ? ? ? Hpass _ IH]; [reflexivity|].
  cbn [fmap list_fmap fst]. destruct Hpass. cbn [obs]. f_equal. exact IH.
Qed.

Lemma sweep_Ok (rng rng' : Rng) (lp : list LabeledPoint) (table : list Row) :
  run rng lp = Ok (rng', table) <-> passes lp iterations rng table rng'.
Proof.
  rewrite sweep_flat, for_each_body_Ok. split.
  - intros (rows & Hrows & ->). exact Hrows.
  - intros Hrows. exists table. split; [exact Hrows|reflexivity].
Qed.

Lemma sweep_body_nonempty (lp : list LabeledPoint) (obs d : Z)
    (rng rng' : Rng) (tbl : list Row) (tr va : list LabeledPoint) :
  randomSplit [4 # 5; 1 # 5]%Q rng lp = ((tr, va), rng') ->
  tr <> [] -> va <> [] ->
  match trainClassifier tr 2 german_cfi "gini" 10 d with
  | Ok model =>
      exists e1 e2,
        rate model tr = Ok e1 /\ rate model va = Ok e2 /\
        body lp obs d (rng, tbl) =
        Ok (rng', (tbl ++ [mkRow obs (depth model) (numNodes model)
                             e1 e2])%list)
  | Raise e => body lp obs d (rng, tbl) = Raise e
  end.
Proof.
  intros Hsplit Htr Hva. unfold sweep_body. rewrite Hsplit.
  destruct (trainClassifier tr 2 german_cfi "gini" 10 d) as [m|e];
    cbn [mbind Result_bind]; [|reflexivity].
  destruct (rate_nonempty predict m tr Htr) as [e1 H1].
  destruct (rate_nonempty predict m va Hva) as [e2 H2].
  exists e1, e2. rewrite H1, H2. repeat split; reflexivity.
Qed.

Lemma for_each_body_Raise (lp : list LabeledPoint) (its : list (Z * Z))
    (rng : Rng) (tbl : list Row) (e : PyError) :
  splits_ok lp ->
  for_each its (fun it => body lp it.1 it.2) (rng, tbl) = Raise e ->
  exists data d, trainClassifier data 2 german_cfi "gini" 10 d = Raise e.
Proof.
  intros Hne. revert rng tbl.
  induction its as [|[obs d] its IH]; intros rng tbl; [discriminate|].
  cbn [for_each fst snd].
  destruct (randomSplit [4 # 5; 1 # 5]%Q rng lp) as [[tr va] r1] eqn:Hsplit.
  pose proof (Hne rng) as [Htr Hva]. rewrite Hsplit in Htr, Hva.
  pose proof (sweep_body_nonempty lp obs d rng r1 tbl tr va Hsplit Htr Hva)
    as Hb.
  destruct (trainClassifier tr 2 german_cfi "gini" 10 d) as [m|e'] eqn:Ht.
  - destruct Hb as (e1 & e2 & _ & _ & ->). cbn [mbind Result_bind].
    apply IH.
  - rewrite Hb. cbn [mbind Result_bind]. intros [= <-]. eauto.
Qed.

Lemma sweep_rows_exist (lp : list LabeledPoint) (its : list (Z * Z))
    (rng : Rng) :
  trained -> splits_ok lp ->
  exists rows rng', passes lp its rng rows rng'.
Proof.
  intros Htrain Hne. revert rng.
  induction its as [|[obs d] its IH]; intros rng.
  - exists [], rng. constructor.
  - destruct (randomSplit [4 # 5; 1 # 5]%Q rng lp) as [[tr va] r1] eqn:Hsplit.
    pose proof (Hne rng) as [Htr Hva]. rewrite Hsplit in Htr, Hva.
    destruct (Htrain tr d) as [m Hm].
    destruct (rate_nonempty predict m tr Htr) as [e1 H1].
    destruct (rate_nonempty predict m va Hva) as [e2 H2].
    destruct (IH r1) as (rows & rng' & Hrows).
    eexists (_ :: rows), rng'. econstructor; [|exact Hrows].
    econstructor; eassumption.
Qed.


(** C4: the rate raises [ZeroDivisionError] exactly on the empty list;
    in a pass whose split has two parts that are not empty, both rates
    are computed and the pass raises only what the trainer raises, and a
    sweep whose splits are all so raises only what the trainer raises. *)
Theorem rate_division_by_zero :
  (forall (model : Model) (data : list LabeledPoint),
     rate model data = Raise ZeroDivisionError <-> data = []) /\
  (forall (lp : list LabeledPoint) (obs d : Z) (rng rng' : Rng)
          (tbl : list Row) (tr va : list LabeledPoint),
     randomSplit [4 # 5; 1 # 5]%Q rng lp = ((tr, va), rng') ->
     tr <> [] -> va <> [] ->
     match trainClassifier tr 2 german_cfi "gini" 10 d with
     | Ok model =>
         exists e1 e2,
           rate model tr = Ok e1 /\ rate model va = Ok e2 /\
           body lp obs d (rng, tbl) =
           Ok (rng', (tbl ++ [mkRow obs (depth model) (numNodes model)
                                e1 e2])%list)
     | Raise e => body lp obs d (rng, tbl) = Raise e
     end) /\
  (forall (lp : list LabeledPoint) (rng : Rng) (e : PyError),
     splits_ok lp ->
     run rng lp = Raise e ->
     exists data d, trainClassifier data 2 german_cfi "gini" 10 d = Raise e).
Proof.
  split; [|split].
  - intros model data. rewrite rate_Raise. split; [tauto|]. intros ->. done.
  - apply sweep_body_nonempty.
  - intros lp rng e Hne.
    rewrite sweep_flat.
    apply for_each_body_Raise. exact Hne.
Qed.

End SweepFacts.

Lemma alternating_split_nonempty :
  splits_nonempty bool alternating_split two_points.
Proof. intros [|]; split; vm_compute; discriminate. Qed.


Lemma rate_division_by_zero_witness :
  misclassification_rate Z stump_predict 1 [] = Raise ZeroDivisionError /\
  (exists e1 e2,
     misclassification_rate Z stump_predict 1 [scenario_point] = Ok e1 /\
     misclassification_rate Z stump_predict 1 [young_point] = Ok e2 /\
     sweep_body Z stump_trainer stump_predict stump_depth stump_numNodes bool
       alternating_split two_points 0 2 (false, []) =
     Ok (true, [mkRow 0 0 1 e1 e2])) /\
  (exists data d,
     failing_trainer data 2 german_cfi "gini" 10 d =
     Raise (TrainingFailure "no tree")).
Proof.
  split; [|split].
  - apply (proj1 (rate_division_by_zero stump_trainer stump_predict
                    stump_depth stump_numNodes alternating_split) 1 []).
    reflexivity.
  - apply (proj1 (proj2 (rate_division_by_zero stump_trainer stump_predict
                           stump_depth stump_numNodes alternating_split))
             two_points 0 2 false true [] [scenario_point] [young_point]).
    + vm_compute. reflexivity.
    + discriminate.
    + discriminate.
  - apply (proj2 (proj2 (rate_division_by_zero failing_trainer stump_predict
                           stump_depth stump_numNodes alternating_split))
             two_points false (TrainingFailure "no tree")).
    + exact alternating_split_nonempty.
    + vm_compute. reflexivity.
Defined.

(** ** The table passed to the trainer *)

Lemma german_cfi_entries :
  map_Forall (fun k c : Z => 0 <= k < 20 /\ 2 <= c) german_cfi.
Proof. apply (bool_decide_unpack _). vm_compute. exact I. Qed.

Lemma checked_trainClassifier_german_cfi {Model : Type}
    (trainClassifier :
       list LabeledPoint -> Z -> gmap Z Z -> string -> Z -> Z -> Result Model)
    (data : list LabeledPoint) (numClasses : Z) (impurity : string)
    (minInstancesPerNode maxDepth : Z) :
  checked_trainClassifier Model trainClassifier data numClasses german_cfi
    impurity minInstancesPerNode maxDepth
  = trainClassifier data numClasses german_cfi impurity minInstancesPerNode
      maxDepth.
Proof.
  unfold checked_trainClassifier.
  destruct (decide (map_Forall (fun k _ : Z => 0 <= k < 20) german_cfi))
    as [_|Hbad]; [reflexivity|].
  exfalso. apply Hbad. intros k c Hk.
  apply (german_cfi_entries k c Hk).
Qed.

(** C7: every key of [german_cfi] is a position of the 20-element feature
    vector [german_lp] builds and every value is at least 2; the sweep
    passes no other table to the trainer, so a trainer that rejects a key
    outside [0, 20) leaves every run of the sweep as it is. *)
Theorem german_cfi_in_range :
  (forall k c : Z, german_cfi !! k = Some c -> 0 <= k < 20 /\ 2 <= c) /\
  (forall (vals : gmap string Z) (lp : LabeledPoint) (k c : Z),
     german_lp vals = Ok lp -> german_cfi !! k = Some c ->
     0 <= k < Z.of_nat (length (features lp))) /\
  (forall (Model : Type)
          (trainClassifier :
             list LabeledPoint -> Z -> gmap Z Z -> string -> Z -> Z ->
             Result Model)
          (predict : Model -> list Z -> Z) (depth numNodes : Model -> Z)
          (Rng : Type)
          (randomSplit :
             list Q -> Rng -> list LabeledPoint ->
             (list LabeledPoint * list LabeledPoint) * Rng)
          (rng : Rng) (lp : list LabeledPoint),
     sweep Model (checked_trainClassifier Model trainClassifier) predict
       depth numNodes Rng randomSplit rng lp
     = sweep Model trainClassifier predict depth numNodes Rng randomSplit
         rng lp).
Proof.
  split; [|split].
  - intros k c Hk. exact (german_cfi_entries k c Hk).
  - intros vals lp k c Hlp Hk.
    pose proof (german_lp_Ok_complete _ _ Hlp) as Hc.
    rewrite (german_lp_complete _ Hc) in Hlp. apply Ok_inj in Hlp. subst lp.
    cbn [features]. rewrite length_fmap.
    destruct (german_cfi_entries k c Hk) as [Hrange _]. exact Hrange.
  - intros Model trainClassifier predict depth numNodes Rng randomSplit rng lp.
    unfold sweep. apply for_each_ext. intros obs st.
    apply for_each_ext. intros d [r tbl]. unfold sweep_body.
    destruct (randomSplit [4 # 5; 1 # 5]%Q r lp) as [[tr va] r1].
    rewrite checked_trainClassifier_german_cfi. reflexivity.
Qed.

Lemma german_cfi_in_range_witness :
  (0 <= 13 < 20 /\ 2 <= 3) /\
  0 <= 13 < Z.of_nat (length (features scenario_point)).
Proof.
  split.
  - apply (proj1 german_cfi_in_range 13 3). vm_compute. reflexivity.
  - apply (proj1 (proj2 german_cfi_in_range) scenario_row scenario_point 13 3).
    + vm_compute. reflexivity.
    + vm_compute. reflexivity.
Defined.


(** ** More on [german_lp] *)

Lemma first_absent_index (vals : gmap string Z) (fields : list string)
    (k : string) :
  first_absent vals fields = Some k <->
  exists i : nat,
    fields !! i = Some k /\ vals !! k = None /\
    forall (j : nat) (f : string),
      (j < i)%nat -> fields !! j = Some f -> is_Some (vals !! f).
Proof.
  unfold first_absent. revert k.
  induction fields as [|f0 fields IH]; intros k; cbn [find].
  - split; [discriminate | intros (i & Hi & _); discriminate].
  - destruct (vals !! f0) as [v0|] eqn:Hf0.
    + rewrite bool_decide_eq_false_2 by discriminate. rewrite IH. split.
      * intros (i & Hi & Hk & Hbefore). exists (S i).
        split; [exact Hi|]. split; [exact Hk|].
        intros [|j] f Hj Hf; cbn in Hf.
        -- injection Hf as <-. eauto.
        -- apply (Hbefore j f); [lia | exact Hf].
      * intros ([|i] & Hi & Hk & Hbefore); cbn in Hi.
        -- injection Hi as ->. congruence.
        -- exists i. split; [exact Hi|]. split; [exact Hk|].
           intros j f Hj Hf. apply (Hbefore (S j) f); [lia | exact Hf].
    + rewrite bool_decide_eq_true_2 by reflexivity. split.
      * intros [= <-]. exists 0%nat. split; [reflexivity|].
        split; [exact Hf0|]. intros j f Hj. lia.
      * intros ([|i] & Hi & Hk & Hbefore); cbn in Hi.
        -- injection Hi as ->. reflexivity.
        -- destruct (Hbefore 0%nat f0) as [v Hv]; [lia | reflexivity|].
           congruence.
Qed.

(** X1: the label of the point is the raw value of [cred], as it is. *)
Theorem german_lp_label_verbatim (vals : gmap string Z) (lp : LabeledPoint) :
  german_lp vals = Ok lp -> vals !! "cred" = Some (label lp).
Proof.
  intros Hlp. pose proof (german_lp_Ok_complete _ _ Hlp) as Hc.
  rewrite (german_lp_complete _ Hc) in Hlp. apply Ok_inj in Hlp. subst lp.
  cbn [label]. unfold complete in Hc. rewrite Forall_forall in Hc.
  destruct (Hc "cred") as [c Hcred]; [left|].
  unfold raw. rewrite Hcred. reflexivity.
Qed.

Lemma german_lp_label_verbatim_witness :
  scenario_row !! "cred" = Some (label scenario_point).
Proof.
  apply (german_lp_label_verbatim scenario_row scenario_point).
  vm_compute. reflexivity.
Defined.

(** X2: [german_lp] raises nothing but a [KeyError], and the key it
    reports is the first field the row lacks in the order the fields are
    subscripted: [cred], then the features from left to right. *)
Theorem german_lp_first_missing_field (vals : gmap string Z) (e : PyError) :
  german_lp vals = Raise e <->
  exists (i : nat) (k : string),
    e = KeyError k /\ schema_fields !! i = Some k /\ vals !! k = None /\
    forall (j : nat) (f : string),
      (j < i)%nat -> schema_fields !! j = Some f -> is_Some (vals !! f).
Proof.
  rewrite german_lp_first_absent. split.
  - destruct (first_absent vals schema_fields) as [k|] eqn:Hk; [|discriminate].
    intros [= <-]. apply first_absent_index in Hk.
    destruct Hk as (i & Hi & Hnone & Hbefore). exists i, k. auto.
  - intros (i & k & -> & Hi & Hnone & Hbefore).
    assert (Hk : first_absent vals schema_fields = Some k)
      by (apply first_absent_index; eauto).
    rewrite Hk. reflexivity.
Qed.

Lemma german_lp_first_missing_field_witness :
  german_lp (delete "age" (delete "value" scenario_row))
  = Raise (KeyError "value").
Proof.
  apply (proj2 (german_lp_first_missing_field
                  (delete "age" (delete "value" scenario_row))
                  (KeyError "value"))).
  exists 6%nat, "value". split; [reflexivity|]. split; [reflexivity|].
  split; [vm_compute; reflexivity|].
  intros j f Hj Hf.
  assert (Hpre : Forall (fun f => is_Some
                    (delete "age" (delete "value" scenario_row) !! f))
                   (take 6 schema_fields))
    by (apply (bool_decide_unpack _); vm_compute; exact I).
  rewrite Forall_forall in Hpre. apply Hpre.
  apply list_elem_of_lookup. exists j. rewrite lookup_take_lt by exact Hj.
  exact Hf.
Defined.

(** X4: the three places that list the fields agree: the field table has
    the fields in the order [german_lp] subscripts them, [german_cfi] maps
    the position of a feature to the NumCat of its row, having no key where
    the table marks the feature continuous, and [german_lp] subtracts 1
    exactly at the features the table marks categorical. *)
Theorem german_cfi_matches_field_table :
  field_table.*1 = schema_fields /\
  (fun i : nat => german_cfi !! Z.of_nat i) <$> seq 0 20
  = (fun row => num_categories row.2) <$> tail field_table /\
  layout.*2
  = (fun row => bool_decide (is_Some (num_categories row.2)))
      <$> tail field_table.
Proof. repeat split; vm_compute; reflexivity. Qed.

(** ** Facts on the dataset *)

Lemma collect_fmap_Ok {A B : Type} (f : A -> Result B) (l : list A)
    (xs : list B) :
  collect (f <$> l) = Ok xs <-> Forall2 (fun a x => f a = Ok x) l xs.
Proof.
  revert xs. induction l as [|a l IH]; intros xs; cbn [fmap list_fmap collect].
  - split.
    + intros [= <-]. constructor.
    + intros H. inversion H. reflexivity.
  - destruct (f a) as [x|e] eqn:Hfa; cbn [mbind Result_bind].
    + destruct (collect (f <$> l)) as [xs'|e] eqn:Hrest;
        cbn [mbind Result_bind].
      * split.
        -- intros [= <-]. constructor; [exact Hfa|]. apply IH. reflexivity.
        -- intros H. inversion H as [|? y ? ys Hy Hys]; subst.
           apply IH in Hys. rewrite Hfa in Hy. congruence.
      * split; [discriminate|].
        intros H. inversion H as [|? y ? ys Hy Hys]; subst.
        apply IH in Hys. discriminate.
    + split; [discriminate|].
      intros H. inversion H as [|? y ? ys Hy Hys]; subst.
      rewrite Hfa in Hy. discriminate.
Qed.

Lemma lp_points_Forall2 (dat : list (gmap string Z))
    (pts : list LabeledPoint) :
  lp_points dat = Ok pts <->
  Forall2 (fun row p => german_lp row = Ok p) dat pts.
Proof. apply collect_fmap_Ok. Qed.

Lemma german_lp_Ok_length (vals : gmap string Z) (lp : LabeledPoint) :
  german_lp vals = Ok lp -> length (features lp) = 20%nat.
Proof.
  intros Hlp. pose proof (german_lp_Ok_complete _ _ Hlp) as Hc.
  rewrite (german_lp_complete _ Hc) in Hlp. apply Ok_inj in Hlp. subst lp.
  cbn [features]. rewrite length_fmap. reflexivity.
Qed.

Lemma two_rows_points :
  lp_points two_rows
  = Ok [scenario_point;
        mkLabeledPoint 1 [-1; 6; 4; 2; 1169; 4; 4; 3; 2; 0; 3; 1; 67; 2; 1;
                          1; 2; 0; 1; 0]].
Proof. vm_compute. reflexivity. Qed.

(** X5: mapping [german_lp] over the dataset yields a list of points
    exactly when every row has all 21 fields. *)
Theorem lp_points_Ok_iff (dat : list (gmap string Z)) :
  (exists pts, lp_points dat = Ok pts) <-> Forall complete dat.
Proof.
  split.
  - intros [pts Hpts]. apply lp_points_Forall2 in Hpts.
    induction Hpts as [|row p dat pts Hrow _ IH]; constructor;
      [eapply german_lp_Ok_complete; exact Hrow | exact IH].
  - intros Hall. induction Hall as [|row dat Hrow _ [pts IH]].
    + exists []. reflexivity.
    + eexists (_ :: pts). apply lp_points_Forall2. constructor.
      * apply german_lp_complete, Hrow.
      * apply lp_points_Forall2. exact IH.
Qed.

Lemma lp_points_Ok_iff_witness :
  Forall complete two_rows /\ exists pts, lp_points two_rows = Ok pts.
Proof.
  assert (Hpts : exists pts, lp_points two_rows = Ok pts)
    by (eexists; exact two_rows_points).
  split.
  - apply (proj1 (lp_points_Ok_iff two_rows)). exact Hpts.
  - apply (proj2 (lp_points_Ok_iff two_rows)).
    apply (proj1 (lp_points_Ok_iff two_rows)). exact Hpts.
Defined.

(** X6: the list of points has one point per row, in the order of the
    rows; the point at a position is [german_lp] of the row there, it has
    20 features, and every key of [german_cfi] is a position of its feature
    vector. *)
Theorem lp_points_shape (dat : list (gmap string Z))
    (pts : list LabeledPoint) :
  lp_points dat = Ok pts ->
  length pts = length dat /\
  forall (i : nat) (p : LabeledPoint),
    pts !! i = Some p ->
    (exists row, dat !! i = Some row /\ german_lp row = Ok p) /\
    length (features p) = 20%nat /\
    forall k : Z, k ∈ dom german_cfi -> is_Some (features p !! Z.to_nat k).
Proof.
  intros Hpts. apply lp_points_Forall2 in Hpts. split.
  - symmetry. eapply Forall2_length. exact Hpts.
  - intros i p Hp.
    destruct (Forall2_lookup_r _ _ _ _ _ Hpts Hp) as (row & Hrow & Hlp).
    pose proof (german_lp_Ok_length _ _ Hlp) as Hlen.
    split; [eauto|]. split; [exact Hlen|].
    intros k Hk. apply german_cfi_keys_range in Hk.
    apply lookup_lt_is_Some_2. lia.
Qed.

Lemma lp_points_shape_witness :
  length [scenario_point] = length [scenario_row] /\
  forall (i : nat) (p : LabeledPoint),
    [scenario_point] !! i = Some p ->
    (exists row, [scenario_row] !! i = Some row /\ german_lp row = Ok p) /\
    length (features p) = 20%nat /\
    forall k : Z, k ∈ dom german_cfi -> is_Some (features p !! Z.to_nat k).
Proof.
  apply (lp_points_shape [scenario_row] [scenario_point]).
  vm_compute. reflexivity.
Defined.

(** X7: [X] and [y] of the local tree have one entry per row of the
    dataset, every row of [X] has 20 columns, and pairing [y] with [X]
    entry by entry gives the points back. *)
Theorem collect_X_y_shape (dat : list (gmap string Z))
    (pts : list LabeledPoint) :
  lp_points dat = Ok pts ->
  length (collect_X pts) = length dat /\
  length (collect_y pts) = length dat /\
  Forall (fun row : list Z => length row = 20%nat) (collect_X pts) /\
  zip_with mkLabeledPoint (collect_y pts) (collect_X pts) = pts.
Proof.
  intros Hpts. apply lp_points_Forall2 in Hpts.
  unfold collect_X, collect_y. rewrite !length_fmap.
  pose proof (Forall2_length _ _ _ Hpts) as Hlen.
  split; [lia|]. split; [lia|]. split.
  - apply Forall_fmap. clear Hlen.
    induction Hpts as [|row p dat pts Hrow _ IH]; constructor;
      [exact (german_lp_Ok_length _ _ Hrow) | exact IH].
  - clear. induction pts as [|[l fs] pts IH]; [reflexivity|].
    cbn [fmap list_fmap zip_with label features]. f_equal. exact IH.
Qed.

Lemma collect_X_y_shape_witness :
  length (collect_X [scenario_point]) = length [scenario_row] /\
  length (collect_y [scenario_point]) = length [scenario_row] /\
  Forall (fun row : list Z => length row = 20%nat)
    (collect_X [scenario_point]) /\
  zip_with mkLabeledPoint (collect_y [scenario_point])
    (collect_X [scenario_point]) = [scenario_point].
Proof.
  apply (collect_X_y_shape [scenario_row] [scenario_point]).
  vm_compute. reflexivity.
Defined.

(** ** More on the error rate *)

Lemma float_div_bounds (a b : Z) (q : Q) :
  0 <= a <= b -> float_div a b = Ok q -> (0 <= q <= 1)%Q.
Proof.
  intros [Ha Hab]. unfold float_div.
  destruct (decide (b = 0)) as [|Hb]; [discriminate|]. intros [= <-].
  assert (Hpos : (0 < inject_Z b)%Q)
    by (change 0%Q with (inject_Z 0); rewrite <- Zlt_Qlt; lia).
  rewrite Qred_correct. split.
  - apply Qle_shift_div_l; [exact Hpos|]. rewrite Qmult_0_l.
    change 0%Q with (inject_Z 0). rewrite <- Zle_Qle. exact Ha.
  - apply Qle_shift_div_r; [exact Hpos|]. rewrite Qmult_1_l.
    rewrite <- Zle_Qle. exact Hab.
Qed.

Lemma float_div_Ok_inv (a b : Z) (q : Q) :
  float_div a b = Ok q -> b <> 0 /\ (inject_Z a == q * inject_Z b)%Q.
Proof.
  unfold float_div. destruct (decide (b = 0)) as [|Hb]; [discriminate|].
  intros [= <-]. split; [exact Hb|]. rewrite Qred_correct.
  rewrite Qmult_comm. symmetry. apply Qmult_div_r, inject_Z_nonzero, Hb.
Qed.

Section RateMore.

Context {Model : Type} (predict : Model -> list Z -> Z).

Local Abbreviation rate := (misclassification_rate Model predict).
Local Abbreviation wrong := (mismatches Model predict).

Lemma mismatches_le (model : Model) (data : list LabeledPoint) :
  (wrong model data <= length data)%nat.
Proof. unfold mismatches. apply length_filter. Qed.

Lemma mismatches_zero_inv (model : Model) (data : list LabeledPoint) :
  wrong model data = 0%nat ->
  forall p, p ∈ data -> predict model (features p) = label p.
Proof.
  unfold mismatches. intros Hzero p Hp.
  apply length_zero_iff_nil in Hzero.
  destruct (decide (predict model (features p) = label p)) as [Heq|Hne];
    [exact Heq|].
  exfalso. exact (filter_nil_not_elem_of _ _ p Hzero Hne Hp).
Qed.

Lemma mismatches_full_inv (model : Model) (data : list LabeledPoint) :
  wrong model data = length data ->
  forall p, p ∈ data -> predict model (features p) <> label p.
Proof.
  unfold mismatches. intros Hfull p Hp Heq.
  assert (Hlt : (length (filter (fun p => predict model (features p)
                                          <> label p) data)
                 < length data)%nat).
  { apply (length_filter_lt _ _ p); [exact Hp|]. intros Hne. exact (Hne Heq). }
  lia.
Qed.

Lemma rate_Ok_bounds (model : Model) (data : list LabeledPoint) (q : Q) :
  rate model data = Ok q -> (0 <= q <= 1)%Q.
Proof.
  rewrite rate_as_quotient. apply float_div_bounds.
  pose proof (mismatches_le model data). lia.
Qed.

(** X8: on a list that is not empty the rate is a fraction between 0
    and 1. *)
Theorem rate_between_0_and_1 (model : Model) (data : list LabeledPoint) :
  data <> [] -> exists q, rate model data = Ok q /\ (0 <= q <= 1)%Q.
Proof.
  intros Hne. destruct (rate_nonempty predict model data Hne) as [q Hq].
  exists q. split; [exact Hq|]. exact (rate_Ok_bounds model data q Hq).
Qed.

(** X9: the rate is 0 only when every prediction is the label, and 1
    only when no prediction is. *)
Theorem rate_extremes (model : Model) (data : list LabeledPoint) :
  (rate model data = Ok 0%Q ->
   forall p, p ∈ data -> predict model (features p) = label p) /\
  (rate model data = Ok 1%Q ->
   forall p, p ∈ data -> predict model (features p) <> label p).
Proof.
  rewrite rate_as_quotient. split; intros Hrate.
  - apply float_div_Ok_inv in Hrate. destruct Hrate as [_ Heq].
    rewrite Qmult_0_l in Heq.
    pose proof (proj1 (inject_Z_injective _ 0) Heq) as Hzero.
    apply mismatches_zero_inv. lia.
  - apply float_div_Ok_inv in Hrate. destruct Hrate as [_ Heq].
    rewrite Qmult_1_l in Heq.
    pose proof (proj1 (inject_Z_injective _ _) Heq) as Hfull.
    apply mismatches_full_inv. lia.
Qed.

(** X10: the rate does not depend on the order of the examples. *)
Theorem rate_permutation (model : Model) (data data' : list LabeledPoint) :
  data ≡ₚ data' -> rate model data = rate model data'.
Proof.
  intros Hperm. rewrite !rate_as_quotient. unfold mismatches.
  rewrite Hperm. reflexivity.
Qed.

End RateMore.

Lemma rate_between_0_and_1_witness :
  exists q, misclassification_rate Z stump_predict 1 two_points = Ok q /\
            (0 <= q <= 1)%Q.
Proof.
  apply (rate_between_0_and_1 stump_predict 1 two_points). discriminate.
Defined.

Lemma rate_extremes_witness :
  (forall p, p ∈ [scenario_point] ->
             stump_predict 1 (features p) = label p) /\
  (forall p, p ∈ [scenario_point] ->
             stump_predict 0 (features p) <> label p).
Proof.
  split.
  - apply (proj1 (rate_extremes stump_predict 1 [scenario_point])).
    vm_compute. reflexivity.
  - apply (proj2 (rate_extremes stump_predict 0 [scenario_point])).
    vm_compute. reflexivity.
Defined.

Lemma rate_permutation_witness :
  misclassification_rate Z stump_predict 1 [scenario_point; young_point]
  = misclassification_rate Z stump_predict 1 [young_point; scenario_point].
Proof.
  apply (rate_permutation stump_predict 1). apply Permutation_swap.
Defined.

(** ** More on the sweep *)

Lemma for_each_Raise {S A : Type} (xs : list A) (body : A -> S -> Result S)
    (s : S) (e : PyError) :
  for_each xs body s = Raise e <->
  exists xs1 x xs2 s',
    xs = (xs1 ++ x :: xs2)%list /\ for_each xs1 body s = Ok s' /\
    body x s' = Raise e.
Proof.
  split.
  - revert s. induction xs as [|x xs IH]; intros s; cbn [for_each];
      [discriminate|].
    destruct (body x s) as [s1|e1] eqn:Hx; cbn [mbind Result_bind].
    + intros Hrest.
      destruct (IH s1 Hrest) as (xs1 & y & xs2 & s' & -> & H1 & H2).
      exists (x :: xs1), y, xs2, s'. split; [reflexivity|].
      split; [|exact H2]. cbn [for_each]. rewrite Hx. exact H1.
    + intros [= ->]. exists [], x, xs, s. auto.
  - intros (xs1 & x & xs2 & s' & -> & H1 & H2).
    rewrite for_each_app, H1. cbn [mbind Result_bind for_each].
    rewrite H2. reflexivity.
Qed.

Lemma iterations_lookup (k : nat) (trial d : Z) :
  iterations !! k = Some (trial, d) ->
  trial = Z.of_nat k / 6 /\ d = 2 + Z.of_nat k mod 6.
Proof.
  rewrite iterations_by_index, list_lookup_fmap. unfold range.
  rewrite list_lookup_fmap.
  destruct (seq 0 (Z.to_nat (180 - 0)) !! k) as [j|] eqn:Hj;
    [|discriminate].
  apply lookup_seq in Hj. destruct Hj as [-> _].
  cbn [fmap option_fmap option_map]. intros [= <- <-].
  split; f_equal; lia.
Qed.

Lemma iterations_head : iterations = (0, 2) :: tail iterations.
Proof. vm_compute. reflexivity. Qed.

Section SweepMore.

Context {Model : Type}.
Context (trainClassifier :
           list LabeledPoint -> Z -> gmap Z Z -> string -> Z -> Z ->
           Result Model).
Context (predict : Model -> list Z -> Z) (depth numNodes : Model -> Z).
Context {Rng : Type}.
Context (randomSplit :
           list Q -> Rng -> list LabeledPoint ->
           (list LabeledPoint * list LabeledPoint) * Rng).

Local Abbreviation rate := (misclassification_rate Model predict).
Local Abbreviation body :=
  (sweep_body Model trainClassifier predict depth numNodes Rng randomSplit).
Local Abbreviation pass :=
  (iteration Model trainClassifier predict depth numNodes Rng randomSplit).
Local Abbreviation passes :=
  (sweep_rows Model trainClassifier predict depth numNodes Rng randomSplit).
Local Abbreviation run :=
  (sweep Model trainClassifier predict depth numNodes Rng randomSplit).
Local Abbreviation next_rng :=
  (fun (lp : list LabeledPoint) (r : Rng) =>
     (randomSplit [4 # 5; 1 # 5]%Q r lp).2).

Lemma sweep_rows_rng (lp : list LabeledPoint) (its : list (Z * Z))
    (rng rng' : Rng) (rows : list Row) :
  passes lp its rng rows rng' ->
  rng' = Nat.iter (length its) (next_rng lp) rng.
Proof.
  induction 1 as [|trial d its rng row rng1 rows rng2 Hpass _ IH];
    [reflexivity|].
  cbn [length]. rewrite Nat.iter_succ_r, IH.
  destruct Hpass as [tr va r1 m e1 e2 Hsplit _ _ _].
  rewrite Hsplit. reflexivity.
Qed.

Lemma sweep_rows_lookup (lp : list LabeledPoint) (its : list (Z * Z))
    (rng rng' : Rng) (rows : list Row) :
  passes lp its rng rows rng' ->
  forall (k : nat) (row : Row),
    rows !! k = Some row ->
    exists trial d data model,
      its !! k = Some (trial, d) /\
      trainClassifier data 2 german_cfi "gini" 10 d = Ok model /\
      obs row = trial /\ max_depth row = depth model /\
      num_nodes row = numNodes model.
Proof.
  induction 1 as [|trial d its rng row0 rng1 rows rng2 Hpass _ IH];
    intros k row Hk; [discriminate|].
  destruct k as [|k]; cbn in Hk.
  - injection Hk as <-.
    destruct Hpass as [tr va r1 m e1 e2 _ Htrain _ _].
    exists trial, d, tr, m. repeat split; try reflexivity. exact Htrain.
  - destruct (IH k row Hk) as (t & d' & data & m & Hit & Hrest).
    exists t, d', data, m. split; [exact Hit | exact Hrest].
Qed.

Lemma sweep_rows_bounds (lp : list LabeledPoint) (its : list (Z * Z))
    (rng rng' : Rng) (rows : list Row) :
  passes lp its rng rows rng' ->
  Forall (fun row => (0 <= train_err row <= 1)%Q /\
                     (0 <= val_err row <= 1)%Q) rows.
Proof.
  induction 1 as [|trial d its rng row rng1 rows rng2 Hpass _ IH];
    constructor; [|exact IH].
  destruct Hpass as [tr va r1 m e1 e2 _ _ H1 H2]. cbn [train_err val_err].
  split; eapply rate_Ok_bounds; eassumption.
Qed.

(** X11: a pass that returns has split once and appended one row, whose
    [obs] is the trial number, to the rows that were there. *)
Theorem sweep_body_appends_one_row (lp : list LabeledPoint) (trial d : Z)
    (rng rng' : Rng) (tbl tbl' : list Row) :
  body lp trial d (rng, tbl) = Ok (rng', tbl') ->
  rng' = next_rng lp rng /\
  exists row, tbl' = (tbl ++ [row])%list /\ obs row = trial.
Proof.
  intros Hbody. apply sweep_body_Ok in Hbody.
  destruct Hbody as (row & Hpass & ->).
  destruct Hpass as [tr va r1 m e1 e2 Hsplit _ _ _]. split.
  - rewrite Hsplit. reflexivity.
  - eexists. split; reflexivity.
Qed.

(** X12: a pass raises what the trainer raises on the train part of its
    split; when the trainer returns a model, the pass raises exactly when
    a part of the split is empty, and then a [ZeroDivisionError]. *)
Theorem sweep_body_Raise (lp : list LabeledPoint) (trial d : Z)
    (rng rng' : Rng) (tbl : list Row) (tr va : list LabeledPoint)
    (e : PyError) :
  randomSplit [4 # 5; 1 # 5]%Q rng lp = ((tr, va), rng') ->
  (body lp trial d (rng, tbl) = Raise e <->
   trainClassifier tr 2 german_cfi "gini" 10 d = Raise e \/
   (exists model,
      trainClassifier tr 2 german_cfi "gini" 10 d = Ok model /\
      e = ZeroDivisionError /\ (tr = [] \/ va = []))).
Proof.
  intros Hsplit. unfold sweep_body. rewrite Hsplit.
  destruct (trainClassifier tr 2 german_cfi "gini" 10 d) as [m|e0];
    cbn [mbind Result_bind].
  - destruct (rate m tr) as [e1|e1] eqn:H1; cbn [mbind Result_bind].
    + assert (Htr : tr <> []).
      { intros ->. rewrite rate_as_quotient in H1. discriminate H1. }
      destruct (rate m va) as [e2|e2] eqn:H2; cbn [mbind Result_bind].
      * assert (Hva : va <> []).
        { intros ->. rewrite rate_as_quotient in H2. discriminate H2. }
        split; [discriminate|].
        intros [Hbad|(m' & _ & _ & [Hbad|Hbad])];
          [discriminate | contradiction | contradiction].
      * apply rate_Raise in H2. destruct H2 as [-> ->]. split.
        -- intros [= <-]. right. exists m. auto.
        -- intros [Hbad|(m' & _ & -> & _)]; [discriminate|reflexivity].
    + apply rate_Raise in H1. destruct H1 as [-> ->]. split.
      * intros [= <-]. right. exists m. auto.
      * intros [Hbad|(m' & _ & -> & _)]; [discriminate|reflexivity].
  - split.
    + intros [= <-]. left. reflexivity.
    + intros [[= <-]|(m' & Hbad & _)]; [reflexivity|discriminate].
Qed.

(** X13: the sweep stops at the first pass that raises: it raises [e]
    exactly when the passes before some pass all return and that pass,
    run on the rows they appended, raises [e]. *)
Theorem sweep_first_failure (rng : Rng) (lp : list LabeledPoint)
    (e : PyError) :
  run rng lp = Raise e <->
  exists its1 trial d its2 rng1 rows,
    iterations = (its1 ++ (trial, d) :: its2)%list /\
    passes lp its1 rng rows rng1 /\
    body lp trial d (rng1, rows) = Raise e.
Proof.
  rewrite sweep_flat, for_each_Raise. split.
  - intros (its1 & [trial d] & its2 & [rng1 rows] & Hits & Hpre & Hbody).
    apply for_each_body_Ok in Hpre. destruct Hpre as (rows' & Hrows & Heq).
    cbn in Heq. subst rows. exists its1, trial, d, its2, rng1, rows'. auto.
  - intros (its1 & trial & d & its2 & rng1 & rows & Hits & Hrows & Hbody).
    exists its1, (trial, d), its2, (rng1, rows).
    split; [exact Hits|]. split; [|exact Hbody].
    apply for_each_body_Ok. exists rows. split; [exact Hrows|reflexivity].
Qed.

(** X14: in the table of a sweep that returns, both error rates of every
    row lie between 0 and 1. *)
Theorem sweep_error_rates_bounded (rng rng' : Rng) (lp : list LabeledPoint)
    (table : list Row) :
  run rng lp = Ok (rng', table) ->
  Forall (fun row => (0 <= train_err row <= 1)%Q /\
                     (0 <= val_err row <= 1)%Q) table.
Proof.
  intros Hrun. apply sweep_Ok in Hrun. eapply sweep_rows_bounds. exact Hrun.
Qed.

(** X15: a sweep that returns has split the dataset 180 times, once per
    pass and each time from the random source the split before left. *)
Theorem sweep_splits_180_times (rng rng' : Rng) (lp : list LabeledPoint)
    (table : list Row) :
  run rng lp = Ok (rng', table) ->
  rng' = Nat.iter 180 (next_rng lp) rng.
Proof.
  intros Hrun. apply sweep_Ok in Hrun.
  apply sweep_rows_rng in Hrun. exact Hrun.
Qed.

(** X16: row [k] of the table of a sweep that returns is that of trial
    [k / 6]; its [max_depth] and [num_nodes] are the depth and the node
    count of a model the trainer returned under the bound [2 + k mod 6],
    not the bound itself. *)
Theorem sweep_row_at (rng rng' : Rng) (lp : list LabeledPoint)
    (table : list Row) (k : nat) (row : Row) :
  run rng lp = Ok (rng', table) ->
  table !! k = Some row ->
  obs row = Z.of_nat k / 6 /\
  exists data model,
    trainClassifier data 2 german_cfi "gini" 10 (2 + Z.of_nat k mod 6)
    = Ok model /\
    max_depth row = depth model /\ num_nodes row = numNodes model.
Proof.
  intros Hrun Hk. apply sweep_Ok in Hrun.
  destruct (sweep_rows_lookup _ _ _ _ _ Hrun k row Hk)
    as (trial & d & data & m & Hit & Htrain & Hobs & Hdepth & Hnodes).
  apply iterations_lookup in Hit. destruct Hit as [-> ->].
  split; [exact Hobs|]. exists data, m. auto.
Qed.

(** X17: when a part of the first split is empty and the first training
    returns a model, the sweep raises [ZeroDivisionError]. *)
Theorem sweep_empty_part_raises (rng rng' : Rng) (lp : list LabeledPoint)
    (tr va : list LabeledPoint) (model : Model) :
  randomSplit [4 # 5; 1 # 5]%Q rng lp = ((tr, va), rng') ->
  tr = [] \/ va = [] ->
  trainClassifier tr 2 german_cfi "gini" 10 2 = Ok model ->
  run rng lp = Raise ZeroDivisionError.
Proof.
  intros Hsplit Hempty Htrain.
  assert (Hbody : body lp 0 2 (rng, []) = Raise ZeroDivisionError).
  { unfold sweep_body. rewrite Hsplit, Htrain. cbn [mbind Result_bind].
    destruct (rate model tr) as [e1|e1] eqn:H1; cbn [mbind Result_bind].
    - destruct Hempty as [->| ->].
      + rewrite rate_as_quotient in H1. discriminate H1.
      + rewrite (rate_as_quotient predict model []). reflexivity.
    - apply rate_Raise in H1. destruct H1 as [_ ->]. reflexivity. }
  rewrite sweep_flat, iterations_head. cbn [for_each fst snd].
  rewrite Hbody. reflexivity.
Qed.

End SweepMore.

Lemma stump_run :
  sweep Z stump_trainer stump_predict stump_depth stump_numNodes bool
    alternating_split false two_points = Ok (false, stump_table).
Proof. vm_compute. reflexivity. Qed.

Lemma sweep_body_appends_one_row_witness :
  true = (alternating_split [4 # 5; 1 # 5]%Q false two_points).2 /\
  exists row, [mkRow 0 0 1 0%Q 1%Q] = ([] ++ [row])%list /\ obs row = 0.
Proof.
  apply (sweep_body_appends_one_row stump_trainer stump_predict stump_depth
           stump_numNodes alternating_split two_points 0 2 false true []
           [mkRow 0 0 1 0%Q 1%Q]).
  vm_compute. reflexivity.
Defined.

Lemma sweep_body_Raise_witness :
  sweep_body Z stump_trainer stump_predict stump_depth stump_numNodes bool
    all_train_split two_points 0 2 (false, []) = Raise ZeroDivisionError.
Proof.
  apply (proj2 (sweep_body_Raise stump_trainer stump_predict stump_depth
                  stump_numNodes all_train_split two_points 0 2 false true
                  [] two_points [] ZeroDivisionError
                  ltac:(vm_compute; reflexivity))).
  right. exists 1. split; [reflexivity|]. split; [reflexivity|].
  right. reflexivity.
Defined.

Lemma sweep_first_failure_witness :
  sweep Z failing_trainer stump_predict stump_depth stump_numNodes bool
    alternating_split false two_points = Raise (TrainingFailure "no tree").
Proof.
  apply (proj2 (sweep_first_failure failing_trainer stump_predict stump_depth
                  stump_numNodes alternating_split false two_points
                  (TrainingFailure "no tree"))).
  exists [], 0, 2, (tail iterations), false, [].
  split; [vm_compute; reflexivity|]. split; [constructor|].
  vm_compute. reflexivity.
Defined.

Lemma sweep_error_rates_bounded_witness :
  Forall (fun row => (0 <= train_err row <= 1)%Q /\
                     (0 <= val_err row <= 1)%Q) stump_table.
Proof.
  apply (sweep_error_rates_bounded stump_trainer stump_predict stump_depth
           stump_numNodes alternating_split false false two_points
           stump_table).
  exact stump_run.
Defined.

Lemma sweep_splits_180_times_witness :
  false = Nat.iter 180
            (fun r => (alternating_split [4 # 5; 1 # 5]%Q r two_points).2)
            false.
Proof.
  apply (sweep_splits_180_times stump_trainer stump_predict stump_depth
           stump_numNodes alternating_split false false two_points
           stump_table).
  exact stump_run.
Defined.

Lemma sweep_row_at_witness :
  obs (mkRow 1 0 1 1%Q 0%Q) = Z.of_nat 7 / 6 /\
  exists data model,
    stump_trainer data 2 german_cfi "gini" 10 (2 + Z.of_nat 7 mod 6)
    = Ok model /\
    max_depth (mkRow 1 0 1 1%Q 0%Q) = stump_depth model /\
    num_nodes (mkRow 1 0 1 1%Q 0%Q) = stump_numNodes model.
Proof.
  apply (sweep_row_at stump_trainer stump_predict stump_depth stump_numNodes
           alternating_split false false two_points stump_table 7
           (mkRow 1 0 1 1%Q 0%Q)).
  - exact stump_run.
  - vm_compute. reflexivity.
Defined.

Lemma sweep_empty_part_raises_witness :
  sweep Z stump_trainer stump_predict stump_depth stump_numNodes bool
    all_train_split false two_points = Raise ZeroDivisionError.
Proof.
  apply (sweep_empty_part_raises stump_trainer stump_predict stump_depth
           stump_numNodes all_train_split false true two_points two_points
           [] 1).
  - vm_compute. reflexivity.
  - right. reflexivity.
  - reflexivity.
Defined.
